(** * A shallow embedding of the n-gram language model

    Source files covered:
    - [src/ml-assignment/src/ngram_model.py] (class [TrigramModel]),
    - [src/ml-assignment/src/utils.py] ([strip_gutenberg_header_footer],
      [normalize_whitespace]),
    - [src/ml-assignment/src/data_pipeline.py] ([process_text]),
    - [src/ml-assignment/src/generate.py] ([main], given the parsed
      arguments and the contents of the corpus file; the printed lines are
      its result).

    Conventions.
    - A Python [str] is a [string]; its characters are read as the code
      points U+0000..U+00FF, with the character classes Python gives them.
    - A Python [int] is a [Z].
    - [self.counts] and [self.context_totals] are finite maps keyed by the
      context tuple; the inner dictionaries of [self.counts] are iterated
      by the sampler, so they are kept as association lists in insertion
      order.
    - Statements that can raise return a [result].
    - [random.uniform] is an operation of a [RandomSource]; the threshold
      it returns and the running sum of the sampler are exact rationals. *)

From Stdlib Require Import ZArith QArith Ascii String.
From stdpp Require Import gmap strings list fin_maps pretty.

Local Open Scope Z_scope.

(** ** Python built-ins on strings and lists *)

Module Py.

Definition ord (c : ascii) : Z := Z.of_N (N_of_ascii c).

Definition between (lo hi x : Z) : bool := (lo <=? x) && (x <=? hi).

(** [str.isspace] on one character. *)
Definition isspace (c : ascii) : bool :=
  let x := ord c in
  between 9 13 x || between 28 32 x || (x =? 133) || (x =? 160).

(** The class [\w] of [re] on [str] patterns: alphanumeric or underscore. *)
Definition isword (c : ascii) : bool :=
  let x := ord c in
  between 48 57 x || between 65 90 x || (x =? 95) || between 97 122 x
  || (x =? 170) || between 178 179 x || (x =? 181) || between 185 186 x
  || between 188 190 x || between 192 214 x || between 216 246 x
  || between 248 255 x.

Definition lower_char (c : ascii) : ascii :=
  let x := ord c in
  if between 65 90 x || between 192 214 x || between 216 222 x
  then ascii_of_N (Z.to_N (x + 32)) else c.

(** [str.lower]. *)
Fixpoint lower (s : string) : string :=
  match s with
  | EmptyString => EmptyString
  | String c s' => String (lower_char c) (lower s')
  end.

Definition is_empty (s : string) : bool :=
  match s with EmptyString => true | String _ _ => false end.

Fixpoint lstrip (s : string) : string :=
  match s with
  | EmptyString => EmptyString
  | String c s' => if isspace c then lstrip s' else s
  end.

Fixpoint rstrip (s : string) : string :=
  match s with
  | EmptyString => EmptyString
  | String c s' =>
      let r := rstrip s' in
      if isspace c && is_empty r then EmptyString else String c r
  end.

(** [str.strip] without argument. *)
Definition strip (s : string) : string := rstrip (lstrip s).

Definition len (s : string) : Z := Z.of_nat (String.length s).

(** How a slice bound is read against a sequence of length [n]. *)
Definition clamp (n i : Z) : Z :=
  if i <? 0 then Z.max (n + i) 0 else Z.min i n.

(** [s[start:stop]]. *)
Definition slice (s : string) (start stop : Z) : string :=
  let lo := clamp (len s) start in
  let hi := clamp (len s) stop in
  String.substring (Z.to_nat lo) (Z.to_nat (hi - lo)) s.

Fixpoint drop_chars (k : nat) (s : string) : string :=
  match k, s with
  | O, _ => s
  | S _, EmptyString => EmptyString
  | S k', String _ s' => drop_chars k' s'
  end.

(** Leftmost occurrence of [sub] in [s], where [s] starts at index [i]
    of the whole string; [-1] when there is none. *)
Fixpoint find_at (sub s : string) (i : Z) : Z :=
  if String.prefix sub s then i
  else match s with
       | EmptyString => -1
       | String _ s' => find_at sub s' (i + 1)
       end.

(** [s.find(sub, start)]. *)
Definition find (s sub : string) (start : Z) : Z :=
  let lo := if start <? 0 then Z.max (len s + start) 0 else start in
  if len s <? lo then -1 else find_at sub (drop_chars (Z.to_nat lo) s) lo.

(** [" ".join(l)]. *)
Fixpoint join (sep : string) (l : list string) : string :=
  match l with
  | [] => EmptyString
  | [x] => x
  | x :: l' => x +:+ sep +:+ join sep l'
  end.

(** [s.split(" ")]: the pieces between single spaces. *)
Fixpoint split_space (s : string) : list string :=
  match s with
  | EmptyString => [EmptyString]
  | String c s' =>
      if Ascii.eqb c " "%char then EmptyString :: split_space s'
      else match split_space s' with
           | p :: ps => String c p :: ps
           | [] => [String c EmptyString]
           end
  end.

Definition newline : string := String (ascii_of_N 10) EmptyString.

Definition is_delim (c : ascii) : bool :=
  Ascii.eqb c "."%char || Ascii.eqb c "!"%char || Ascii.eqb c "?"%char.

(** [re.split(r"[.!?]+", s)]: the pieces between maximal runs of
    delimiters, empty pieces at both ends included.  [in_run] tells that
    the previous character was a delimiter. *)
Fixpoint re_split_aux (in_run : bool) (s : string) : list string :=
  match s with
  | EmptyString => [EmptyString]
  | String c s' =>
      if is_delim c then
        if in_run then re_split_aux true s'
        else EmptyString :: re_split_aux true s'
      else match re_split_aux false s' with
           | p :: ps => String c p :: ps
           | [] => [String c EmptyString]
           end
  end.

Definition re_split_punct (s : string) : list string := re_split_aux false s.

(** The word run that starts at the head of [s], and the later runs. *)
Fixpoint word_runs (s : string) : string * list string :=
  match s with
  | EmptyString => (EmptyString, [])
  | String c s' =>
      let '(w, ws) := word_runs s' in
      if isword c then (String c w, ws)
      else (EmptyString, if is_empty w then ws else w :: ws)
  end.

(** [re.findall(r"\b\w+\b", s)]: the maximal runs of word characters. *)
Definition re_findall_words (s : string) : list string :=
  let '(w, ws) := word_runs s in
  if is_empty w then ws else w :: ws.

(** [l[start:stop]] on lists. *)
Definition lslice {A} (l : list A) (start stop : Z) : list A :=
  let n := Z.of_nat (length l) in
  let lo := clamp n start in
  let hi := clamp n stop in
  take (Z.to_nat (hi - lo)) (drop (Z.to_nat lo) l).

(** [re.sub(r"\s+", " ", s)]: every maximal run of whitespace becomes one
    space.  [in_run] tells that the previous character was whitespace. *)
Fixpoint re_sub_spaces_aux (in_run : bool) (s : string) : string :=
  match s with
  | EmptyString => EmptyString
  | String c s' =>
      if isspace c then
        if in_run then re_sub_spaces_aux true s'
        else String " "%char (re_sub_spaces_aux true s')
      else String c (re_sub_spaces_aux false s')
  end.

Definition re_sub_spaces (s : string) : string := re_sub_spaces_aux false s.

End Py.

(** ** Exceptions *)

Inductive exn := ValueError | IndexError.

Inductive result (A : Type) : Type :=
| Ok (a : A)
| Raise (e : exn).

Arguments Ok {A} a.
Arguments Raise {A} e.

#[global] Instance result_ret : MRet result := fun A a => Ok a.

#[global] Instance result_bind : MBind result := fun A B f r =>
  match r with
  | Ok a => f a
  | Raise e => Raise e
  end.

(** A [for] loop whose body can raise. *)
Fixpoint for_each {A S : Type} (body : S -> A -> result S) (s : S) (l : list A)
  : result S :=
  match l with
  | [] => Ok s
  | x :: l' => s' ← body s x; for_each body s' l'
  end.

(** [l[i]] on lists. *)
Definition getitem {A : Type} (l : list A) (i : Z) : result A :=
  let j := if i <? 0 then i + Z.of_nat (length l) else i in
  if j <? 0 then Raise IndexError
  else match l !! Z.to_nat j with
       | Some x => Ok x
       | None => Raise IndexError
       end.

(** ** The shared random source *)

Class RandomSource (R : Type) := {
  (** [random.seed(v)]: the state depends on [v] only. *)
  seed : Z -> R;
  (** [random.uniform(a, b)]: the number drawn and the next state. *)
  uniform : R -> Z -> Z -> Q * R
}.

(** ** utils.py *)

Module Utils.

Definition START_FLAG : string := "*** START OF THE PROJECT GUTENBERG EBOOK".
Definition END_FLAG : string := "*** END OF THE PROJECT GUTENBERG EBOOK".

Definition strip_gutenberg_header_footer (raw_text : string) : string :=
  if Py.is_empty raw_text then EmptyString
  else
    let lower := Py.lower raw_text in
    let start_idx := Py.find lower (Py.lower START_FLAG) 0 in
    let end_idx := Py.find lower (Py.lower END_FLAG) 0 in
    let start_idx :=
      if negb (start_idx =? -1) then Py.find lower Py.newline start_idx
      else 0 in
    let end_idx := if end_idx =? -1 then Py.len raw_text else end_idx in
    Py.strip (Py.slice raw_text start_idx end_idx).

Definition normalize_whitespace (text : string) : string :=
  Py.strip (Py.re_sub_spaces text).

End Utils.

(** ** data_pipeline.py *)

Module DataPipeline.

Definition process_text (raw_text : string) : string :=
  let cleaned := Utils.strip_gutenberg_header_footer raw_text in
  Utils.normalize_whitespace cleaned.

End DataPipeline.

(** ** ngram_model.py *)

Module TrigramModel.

Definition START_TOKEN : string := "<s>".
Definition END_TOKEN : string := "</s>".
Definition UNK_TOKEN : string := "<unk>".

(** The attributes of an instance. *)
Record t := Build {
  n : Z;
  min_count : Z;
  counts : gmap (list string) (list (string * Z));
  context_totals : gmap (list string) Z;
  vocab : gset string;
  _trained : bool
}.

Definition reserved : gset string :=
  {[ START_TOKEN; END_TOKEN; UNK_TOKEN ]}.

Definition __init__ (n0 min_count0 : Z) : result t :=
  if n0 <? 2 then Raise ValueError
  else Ok (Build n0 min_count0 ∅ ∅ reserved false).

Definition _reset_model_state (self : t) : t :=
  Build (n self) (min_count self) ∅ ∅ reserved false.

Definition _prepare_sentences (text : string) : list (list string) :=
  let lowered := Py.lower text in
  let sentences := Py.re_split_punct lowered in
  foldl (fun tokenized sentence =>
           let tokens := Py.re_findall_words sentence in
           match tokens with
           | [] => tokenized
           | _ :: _ => tokenized ++ [tokens]
           end) [] sentences.

(** [collections.Counter(l)]. *)
Definition Counter (l : list string) : gmap string Z :=
  foldl (fun c x => <[x := default 0 (c !! x) + 1]> c) ∅ l.

Definition _build_vocabulary (self : t) (sentences : list (list string)) : t :=
  let flat_tokens := concat sentences in
  let frequency := Counter flat_tokens in
  let vocab0 : gset string :=
    dom (filter (fun kv => min_count self <= kv.2) frequency) in
  let vocab1 : gset string :=
    if decide (vocab0 = ∅) then dom frequency else vocab0 in
  Build (n self) (min_count self) (counts self) (context_totals self)
        (vocab1 ∪ reserved) (_trained self).

Definition _normalize_sentence (self : t) (sentence : list string) : list string :=
  foldl (fun normalized token =>
           normalized ++
           [if decide (token ∈ vocab self) then token else UNK_TOKEN])
        [] sentence.

(** [d[k] += 1] on an inner dictionary: a key keeps its place, a new key
    goes last and starts from the default [0]. *)
Fixpoint dict_incr (k : string) (d : list (string * Z)) : list (string * Z) :=
  match d with
  | [] => [(k, 0 + 1)]
  | (k', v) :: d' =>
      if decide (k' = k) then (k', v + 1) :: d'
      else (k', v) :: dict_incr k d'
  end.

(** The two statements of the loop body of [_update_counts]. *)
Definition incr_counts (self : t) (context : list string) (target : string) : t :=
  let inner := default [] (counts self !! context) in
  let counts1 := <[context := dict_incr target inner]> (counts self) in
  let totals1 :=
    <[context := default 0 (context_totals self !! context) + 1]>
      (context_totals self) in
  Build (n self) (min_count self) counts1 totals1 (vocab self) (_trained self).

Definition _update_counts (self : t) (tokens : list string) : result t :=
  for_each
    (fun self idx =>
       let context := Py.lslice tokens idx (idx + n self - 1) in
       target ← getitem tokens (idx + n self - 1);
       Ok (incr_counts self context target))
    self
    (seqZ 0 (Z.of_nat (length tokens) - (n self - 1))).

(** [[tok] * k]. *)
Definition times (tok : string) (k : Z) : list string :=
  replicate (Z.to_nat k) tok.

Definition fit (self : t) (text : string) : result t :=
  let stripped := Py.strip text in
  let self := _reset_model_state self in
  if Py.is_empty stripped then Ok self
  else
    let sentences := _prepare_sentences stripped in
    match sentences with
    | [] => Ok self
    | _ :: _ =>
        let self := _build_vocabulary self sentences in
        self ← for_each
                 (fun self sentence =>
                    let normalized_sentence := _normalize_sentence self sentence in
                    let padded :=
                      times START_TOKEN (n self - 1)
                      ++ normalized_sentence ++ [END_TOKEN] in
                    _update_counts self padded)
                 self sentences;
        Ok (Build (n self) (min_count self) (counts self)
                  (context_totals self) (vocab self) true)
    end.

(** [sum(d.values())]. *)
Definition sum_values (d : list (string * Z)) : Z :=
  foldr (fun kv acc => kv.2 + acc) 0 d.

(** [self.counts[context]] on the outer [defaultdict]: a missing key is
    inserted with an empty inner dictionary. *)
Definition counts_getitem (self : t) (context : list string)
  : list (string * Z) * t :=
  match counts self !! context with
  | Some d => (d, self)
  | None =>
      ([], Build (n self) (min_count self) (<[context := []]> (counts self))
                 (context_totals self) (vocab self) (_trained self))
  end.

(** The loop of [_sample_next_word] over [context_counts.items()]. *)
Fixpoint walk (threshold cumulative : Q) (items : list (string * Z))
  : option string :=
  match items with
  | [] => None
  | (word, count) :: rest =>
      let cumulative := Qplus cumulative (inject_Z count) in
      if Qle_bool threshold cumulative then Some word
      else walk threshold cumulative rest
  end.

(** [self.context_totals.get(context, sum(context_counts.values()))]. *)
Definition context_total (self : t) (context : list string)
  (context_counts : list (string * Z)) : Z :=
  match context_totals self !! context with
  | Some x => x
  | None => sum_values context_counts
  end.

Section Sampling.
Context {R : Type} `{RandomSource R}.

(** [_sample_next_word] from the line [context_counts = self.counts[context]]
    on. *)
Definition sample_from (self : t) (context : list string) (r : R)
  : string * t * R :=
  let '(context_counts, self) := counts_getitem self context in
  let total := context_total self context context_counts in
  if total =? 0 then (END_TOKEN, self, r)
  else
    let '(threshold, r) := uniform r 0 total in
    match walk threshold (inject_Z 0) context_counts with
    | Some word => (word, self, r)
    | None => (END_TOKEN, self, r)
    end.

Definition _sample_next_word (self : t) (context : list string) (r : R)
  : string * t * R :=
  if bool_decide (counts self !! context = None) then
    let context := times START_TOKEN (n self - 1) in
    if bool_decide (counts self !! context = None) then (END_TOKEN, self, r)
    else sample_from self context r
  else sample_from self context r.

(** The [for _ in range(max_length)] loop of [generate]. *)
Fixpoint generate_loop (k : nat) (self : t) (context generated : list string)
  (r : R) : list string * t * R :=
  match k with
  | O => (generated, self, r)
  | S k' =>
      let '(next_word, self, r) := _sample_next_word self context r in
      if decide (next_word = END_TOKEN) then (generated, self, r)
      else generate_loop k' self (drop 1 context ++ [next_word])
                         (generated ++ [next_word]) r
  end.

Definition generate (self : t) (max_length : Z) (r : R) : string * t * R :=
  if negb (_trained self) || bool_decide (counts self = ∅)
  then (EmptyString, self, r)
  else
    let context := times START_TOKEN (n self - 1) in
    let '(generated, self, r) :=
      generate_loop (Z.to_nat max_length) self context [] r in
    (Py.join " " generated, self, r).

End Sampling.

End TrigramModel.

(** ** generate.py *)

Module Generate.

(** The parsed command line. *)
Record Args := {
  arg_corpus : string;
  arg_max_length : Z;
  arg_min_count : Z;
  arg_num_samples : Z;
  arg_seed : option Z
}.

(** [s * k]. *)
Fixpoint str_times (s : string) (k : nat) : string :=
  match k with
  | O => EmptyString
  | S k' => s +:+ str_times s k'
  end.

Section Main.
Context {R : Type} `{RandomSource R}.

(** The body of the loop of [main]; the printed lines are collected. *)
Definition print_sample (args : Args)
  (st : list string * TrigramModel.t * R) (idx : Z)
  : list string * TrigramModel.t * R :=
  let '(printed, model, r) := st in
  let '(generated_text, model, r) :=
    TrigramModel.generate model (arg_max_length args) r in
  (printed ++ ["Generated Text #" +:+ pretty idx +:+ ":";
               generated_text;
               str_times "-" 60],
   model, r).

(** [main], from the parsed arguments, the contents of the corpus file and
    the state of the random source; it returns the printed lines. *)
Definition main (args : Args) (text : string) (r : R)
  : result (list string * R) :=
  let r := match arg_seed args with
           | Some v => seed v
           | None => r
           end in
  model ← TrigramModel.__init__ 3 (arg_min_count args);
  model ← TrigramModel.fit model text;
  let '(printed, _, r) :=
    foldl (print_sample args) ([], model, r)
          (seqZ 1 (arg_num_samples args + 1 - 1)) in
  Ok (printed, r).

End Main.

End Generate.

(** ** Vocabulary of the statements *)

(** Every character of [s] satisfies [p]. *)
Fixpoint all_chars (p : ascii -> bool) (s : string) : bool :=
  match s with
  | EmptyString => true
  | String c s' => p c && all_chars p s'
  end.

(** What the tokenizer produces: a non-empty run of word characters. *)
Definition is_token (w : string) : Prop :=
  w <> EmptyString /\ all_chars Py.isword w = true.

(** What the tokenizer keeps as a sentence. *)
Definition good_sentence (sentence : list string) : Prop :=
  sentence <> [] /\ Forall is_token sentence.

(** What a window of a padded sentence can have as its last element. *)
Definition is_target (w : string) : Prop :=
  w = TrigramModel.END_TOKEN \/ w = TrigramModel.UNK_TOKEN \/ is_token w.

(** What [generate] can append to its output. *)
Definition visible (w : string) : Prop :=
  is_target w /\ w <> TrigramModel.END_TOKEN.

Definition not_space (c : ascii) : bool := negb (Ascii.eqb c " "%char).

(** How often [x] occurs in [l]. *)
Definition occurrences (x : string) (l : list string) : Z :=
  Z.of_nat (length (filter (fun y => y = x) l)).

(** The two tables agree, and every stored successor satisfies [T] and has
    been counted at least once. *)
Definition tables_inv (T : string -> Prop) (m : TrigramModel.t) : Prop :=
  forall ctx : list string,
    match TrigramModel.counts m !! ctx with
    | None => TrigramModel.context_totals m !! ctx = None
    | Some inner =>
        TrigramModel.context_totals m !! ctx
          = Some (TrigramModel.sum_values inner)
        /\ inner <> []
        /\ Forall (fun kv => 1 <= kv.2 /\ T kv.1) inner
    end.

(** The attributes that counting leaves alone. *)
Definition same_config (m0 m : TrigramModel.t) : Prop :=
  TrigramModel.n m = TrigramModel.n m0
  /\ TrigramModel.min_count m = TrigramModel.min_count m0
  /\ TrigramModel.vocab m = TrigramModel.vocab m0
  /\ TrigramModel._trained m = TrigramModel._trained m0.

(** Two fresh instances and a small corpus, to run the model on. *)
Definition bigram_model : TrigramModel.t :=
  TrigramModel.Build 2 2 ∅ ∅ TrigramModel.reserved false.

Definition trigram_model : TrigramModel.t :=
  TrigramModel.Build 3 2 ∅ ∅ TrigramModel.reserved false.

Definition ab_corpus : string := "a b. a b.".

Definition cat_corpus : string := "The cat sat. The cat ran. The dog sat.".

Definition abc_corpus : string := "a b c.".

Definition fitted (m : TrigramModel.t) (text : string) : TrigramModel.t :=
  match TrigramModel.fit m text with
  | Ok m' => m'
  | Raise _ => m
  end.



(** A linear congruential source, to run the sampler on concrete inputs. *)
Definition lcg_next (s : Z) : Z := (1103515245 * s + 12345) mod 2147483648.

Definition lcg_source : RandomSource Z :=
  {| seed := fun v => v mod 2147483648;
     uniform := fun s a b =>
       (Qplus (inject_Z a)
              (Qmult (inject_Z (b - a)) (Qmake (lcg_next s) 2147483648)),
        lcg_next s) |}.

(** ** Vocabulary of the further statements *)

(** [self.counts.get(context, {}).get(target, 0)]. *)
Fixpoint dict_get (k : string) (d : list (string * Z)) : Z :=
  match d with
  | [] => 0
  | (k', v) :: d' => if decide (k' = k) then v else dict_get k d'
  end.

Definition stored_count (m : TrigramModel.t) (ctx : list string) (w : string) : Z :=
  match TrigramModel.counts m !! ctx with
  | Some inner => dict_get w inner
  | None => 0
  end.

(** [self.context_totals.get(context, 0)]. *)
Definition stored_total (m : TrigramModel.t) (ctx : list string) : Z :=
  default 0 (TrigramModel.context_totals m !! ctx).

(** The number of places of [tokens] at which the sequence [g] starts. *)
Fixpoint ngram_occurrences (g tokens : list string) : Z :=
  match tokens with
  | [] => 0
  | _ :: rest =>
      (if decide (take (length g) tokens = g) then 1 else 0)
      + ngram_occurrences g rest
  end.

(** The number of places of [tokens] at which [ctx] starts and is followed
    by one more token. *)
Fixpoint context_occurrences (ctx tokens : list string) : Z :=
  match tokens with
  | [] => 0
  | _ :: rest =>
      (if decide (take (length ctx) tokens = ctx
                  /\ (length ctx < length tokens)%nat) then 1 else 0)
      + context_occurrences ctx rest
  end.

(** A sentence as [fit] hands it to [_update_counts]. *)
Definition padded_sentence (m : TrigramModel.t) (sentence : list string)
  : list string :=
  TrigramModel.times TrigramModel.START_TOKEN (TrigramModel.n m - 1)
  ++ TrigramModel._normalize_sentence m sentence
  ++ [TrigramModel.END_TOKEN].

(** The sum of [f] over the sentences. *)
Definition sum_over {A : Type} (f : A -> Z) (l : list A) : Z :=
  foldr (fun x acc => f x + acc) 0 l.

(** The sum of a weight [wt context target] over the windows of width
    [k + 1] of [tokens]. *)
Fixpoint window_sum (k : nat) (wt : list string -> string -> Z)
  (tokens : list string) : Z :=
  match tokens with
  | [] => 0
  | _ :: rest =>
      match tokens !! k with
      | Some target => wt (take k tokens) target
      | None => 0
      end + window_sum k wt rest
  end.

(** What [re.findall] returns for a piece, from the word run at its head
    and the later runs. *)
Definition finish (p : string * list string) : list string :=
  if Py.is_empty p.1 then p.2 else p.1 :: p.2.

(** The effect of one more character in front of a piece. *)
Definition step_char (c : ascii) (p : string * list string)
  : string * list string :=
  if Py.isword c then (String c p.1, p.2) else (EmptyString, finish p).

(** The word runs of every piece of [re.split]. *)
Definition runs (in_run : bool) (s : string) : list (string * list string) :=
  map Py.word_runs (Py.re_split_aux in_run s).

(** The non-empty token lists of the pieces. *)
Definition sentences_of (in_run : bool) (s : string) : list (list string) :=
  filter (fun l => l <> []) (map finish (runs in_run s)).

(** No two whitespace characters of [s] are adjacent; [prev] tells that the
    character before [s] was whitespace. *)
Fixpoint no_adjacent_spaces (prev : bool) (s : string) : bool :=
  match s with
  | EmptyString => true
  | String c s' =>
      if Py.isspace c then negb prev && no_adjacent_spaces true s'
      else no_adjacent_spaces false s'
  end.

(** The characters of [s] that are not whitespace, in order. *)
Fixpoint non_space_chars (s : string) : string :=
  match s with
  | EmptyString => EmptyString
  | String c s' =>
      if Py.isspace c then non_space_chars s'
      else String c (non_space_chars s')
  end.

(** A character that is not whitespace, or is the plain space. *)
Definition plain_space_only (c : ascii) : bool :=
  negb (Py.isspace c) || Ascii.eqb c " "%char.

(** The lines that [main] prints for the generated texts [texts]. *)
Definition printed_lines (texts : list string) : list string :=
  concat (imap (fun i text =>
                  ["Generated Text #" +:+ pretty (Z.of_nat i + 1) +:+ ":";
                   text;
                   Generate.str_times "-" 60]) texts).

(** No space-separated token of [text] is the start- or the end-marker. *)
Definition marker_free (text : string) : Prop :=
  forall w, w ∈ Py.split_space text ->
            w <> TrigramModel.START_TOKEN /\ w <> TrigramModel.END_TOKEN.

(** * Properties *)

Import TrigramModel.

(** ** The embedding on concrete inputs *)

Example lower_ex : Py.lower "The Cat_9!" = "the cat_9!".
Proof. reflexivity. Qed.

Example strip_ex : Py.strip "  a b  " = "a b".
Proof. reflexivity. Qed.

Example find_ex : Py.find "hello world" "o" 5 = 7.
Proof. reflexivity. Qed.

Example find_none_ex : Py.find "hello" "z" 0 = -1.
Proof. reflexivity. Qed.

Example slice_neg_ex : Py.slice "abcdef" (-1) 6 = "f".
Proof. reflexivity. Qed.

Example re_split_ex : Py.re_split_punct "a b. a b." = ["a b"; " a b"; ""].
Proof. reflexivity. Qed.

Example prepare_sentences_ex :
  _prepare_sentences "The cat sat. The cat ran!? It's.  ..."
  = [["the"; "cat"; "sat"]; ["the"; "cat"; "ran"]; ["it"; "s"]].
Proof. reflexivity. Qed.

Example init_rejects_unigram : __init__ 1 2 = Raise ValueError.
Proof. reflexivity. Qed.

(** ** Text *)

Section Text.

Lemma lstrip_blank s : all_chars Py.isspace s = true -> Py.lstrip s = EmptyString.
Proof.
  induction s as [|c s IH]; simpl; [done|].
  intros [Hc Hs]%andb_prop. rewrite Hc. auto.
Qed.

Lemma strip_blank s : all_chars Py.isspace s = true -> Py.strip s = EmptyString.
Proof. intros Hs. unfold Py.strip. by rewrite lstrip_blank. Qed.

Lemma word_runs_tokens s :
  all_chars Py.isword (Py.word_runs s).1 = true
  /\ Forall is_token (Py.word_runs s).2.
Proof.
  induction s as [|c s [IHw IHws]]; simpl; [by split|].
  destruct (Py.word_runs s) as [w ws]; simpl in *.
  destruct (Py.isword c) eqn:Hc; simpl.
  - rewrite Hc. by split.
  - split; [done|].
    destruct w as [|c' w]; simpl; [done|].
    constructor; [|done]. by split.
Qed.

Lemma findall_tokens s : Forall is_token (Py.re_findall_words s).
Proof.
  unfold Py.re_findall_words.
  destruct (word_runs_tokens s) as [Hw Hws].
  destruct (Py.word_runs s) as [w ws]; simpl in *.
  destruct w as [|c w]; simpl; [done|].
  constructor; [|done]. by split.
Qed.

Lemma prepare_fold_tokens (pieces : list string) (acc : list (list string)) :
  Forall good_sentence acc ->
  Forall good_sentence
    (foldl (fun tokenized sentence =>
              match Py.re_findall_words sentence with
              | [] => tokenized
              | _ :: _ => tokenized ++ [Py.re_findall_words sentence]
              end) acc pieces).
Proof.
  revert acc.
  induction pieces as [|p pieces IH]; intros acc Hacc; simpl; [done|].
  apply IH.
  pose proof (findall_tokens p) as Hp.
  destruct (Py.re_findall_words p) as [|w ws]; [done|].
  apply Forall_app; split; [done|].
  constructor; [|constructor]. by split.
Qed.

Lemma prepare_sentences_tokens text :
  Forall good_sentence (_prepare_sentences text).
Proof. apply prepare_fold_tokens. constructor. Qed.

Lemma token_not_marker w :
  is_token w -> w <> START_TOKEN /\ w <> END_TOKEN /\ w <> UNK_TOKEN.
Proof.
  intros [_ Hw]. repeat split; intros ->; discriminate.
Qed.

Lemma normalize_fold (f : string -> string) (l acc : list string) :
  foldl (fun normalized token => normalized ++ [f token]) acc l
  = acc ++ map f l.
Proof.
  revert acc. induction l as [|x l IH]; intros acc; simpl.
  - by rewrite app_nil_r.
  - rewrite IH. by rewrite <- app_assoc.
Qed.

Lemma normalize_sentence_map m sentence :
  _normalize_sentence m sentence
  = map (fun token => if decide (token ∈ vocab m) then token else UNK_TOKEN)
        sentence.
Proof. unfold _normalize_sentence. by rewrite normalize_fold. Qed.

End Text.

(** ** Counting *)

Section Counting.

Lemma for_each_inv {A S : Type} (P : S -> Prop) (body : S -> A -> result S)
  (l : list A) (s : S) :
  P s ->
  (forall s0 x, x ∈ l -> P s0 -> exists s1, body s0 x = Ok s1 /\ P s1) ->
  exists s', for_each body s l = Ok s' /\ P s'.
Proof.
  revert s. induction l as [|x l IH]; intros s Hs Hbody; simpl.
  - eauto.
  - destruct (Hbody s x) as (s1 & Hb & Hs1); [by left|done|].
    rewrite Hb. simpl. apply IH; [done|].
    intros s0 y Hy. apply Hbody. by right.
Qed.

Lemma sum_values_dict_incr k d :
  sum_values (dict_incr k d) = sum_values d + 1.
Proof.
  induction d as [|[k' v] d IH]; simpl; [done|].
  case_decide; simpl; lia.
Qed.

Lemma dict_incr_nonempty k d : dict_incr k d <> [].
Proof. destruct d as [|[k' v] d]; simpl; [done|]. by case_decide. Qed.

Lemma dict_incr_Forall (T : string -> Prop) k d :
  T k ->
  Forall (fun kv : string * Z => 1 <= kv.2 /\ T kv.1) d ->
  Forall (fun kv : string * Z => 1 <= kv.2 /\ T kv.1) (dict_incr k d).
Proof.
  intros Hk. induction 1 as [|[k' v] d [Hv HT] Hd IH]; simpl in *.
  - constructor; [|done]. simpl. split; [lia|done].
  - case_decide; constructor; simpl; try done. split; [lia|done].
Qed.

Lemma incr_counts_inv (T : string -> Prop) m context target :
  tables_inv T m -> T target -> tables_inv T (incr_counts m context target).
Proof.
  intros Hinv HT ctx. unfold incr_counts; simpl.
  destruct (decide (ctx = context)) as [->|Hne].
  - rewrite !lookup_insert_eq.
    specialize (Hinv context).
    destruct (counts m !! context) as [inner|]; simpl.
    + destruct Hinv as (Htot & _ & Hall). rewrite Htot. simpl.
      rewrite sum_values_dict_incr.
      repeat split; [apply dict_incr_nonempty|by apply dict_incr_Forall].
    + rewrite Hinv. simpl. repeat split; [done|].
      constructor; [|done]. simpl. split; [lia|done].
  - rewrite !lookup_insert_ne by done. apply Hinv.
Qed.

Lemma incr_counts_config m context target :
  same_config m (incr_counts m context target).
Proof. by repeat split. Qed.

Lemma same_config_trans m0 m1 m2 :
  same_config m0 m1 -> same_config m1 m2 -> same_config m0 m2.
Proof. unfold same_config. intros (?&?&?&?) (?&?&?&?). repeat split; congruence. Qed.

Lemma getitem_in_range {A : Type} (l : list A) (i : Z) :
  0 <= i < Z.of_nat (length l) ->
  exists x, l !! Z.to_nat i = Some x /\ getitem l i = Ok x.
Proof.
  intros Hi. unfold getitem.
  destruct (i <? 0) eqn:Hneg; [lia|]. rewrite Hneg.
  destruct (lookup_lt_is_Some_2 l (Z.to_nat i)) as [x Hx]; [lia|].
  rewrite Hx. eauto.
Qed.

Lemma update_counts_inv (T : string -> Prop) m tokens :
  1 <= n m ->
  tables_inv T m ->
  (forall i w, (Z.to_nat (n m - 1) <= i)%nat -> tokens !! i = Some w -> T w) ->
  exists m', _update_counts m tokens = Ok m'
             /\ tables_inv T m' /\ same_config m m'.
Proof.
  intros Hn Hinv Htok. unfold _update_counts.
  apply (for_each_inv (fun s => tables_inv T s /\ same_config m s)).
  - split; [done|]. by repeat split.
  - intros s idx [Hlo Hhi]%elem_of_seqZ [Hs Hcfg].
    pose proof Hcfg as (Hns & _).
    rewrite Hns.
    destruct (getitem_in_range tokens (idx + n m - 1)) as (w & Hw & ->); [lia|].
    simpl. eexists; split; [done|]. split.
    + apply incr_counts_inv; [done|]. eapply Htok; [|done]. lia.
    + eapply same_config_trans; [done|]. apply incr_counts_config.
Qed.

End Counting.

(** ** Training *)

Section Training.

Lemma reset_tables_inv (T : string -> Prop) m :
  tables_inv T (_reset_model_state m).
Proof. intros ctx. simpl. by rewrite !lookup_empty. Qed.

Lemma build_vocabulary_tables_inv (T : string -> Prop) m sentences :
  tables_inv T m -> tables_inv T (_build_vocabulary m sentences).
Proof. intros Hinv ctx. apply Hinv. Qed.

Lemma padded_targets m (sentence : list string) (i : nat) (w : string) (k : Z) :
  Forall is_token sentence ->
  (Z.to_nat k <= i)%nat ->
  (times START_TOKEN k ++ _normalize_sentence m sentence ++ [END_TOKEN]) !! i
    = Some w ->
  is_target w.
Proof.
  intros Htok Hi Hw.
  rewrite lookup_app_r in Hw
    by (unfold times; rewrite length_replicate; lia).
  apply list_elem_of_lookup_2 in Hw.
  apply elem_of_app in Hw as [Hw| ->%list_elem_of_singleton]; [|by left].
  rewrite normalize_sentence_map in Hw.
  apply list_elem_of_fmap in Hw as (tok & -> & Hin).
  case_decide; [|by right; left].
  right; right. rewrite Forall_forall in Htok. by apply Htok.
Qed.

Lemma is_empty_true s : Py.is_empty s = true -> s = EmptyString.
Proof. by destruct s. Qed.

(** What a training call returns. *)
Lemma fit_spec m text :
  2 <= n m ->
  let sentences := _prepare_sentences (Py.strip text) in
  exists m',
    fit m text = Ok m'
    /\ tables_inv is_target m'
    /\ n m' = n m /\ min_count m' = min_count m
    /\ (sentences = [] -> m' = _reset_model_state m)
    /\ (sentences <> [] ->
        vocab m' = vocab (_build_vocabulary (_reset_model_state m) sentences)
        /\ _trained m' = true).
Proof.
  intros Hn sentences. unfold fit.
  destruct (Py.is_empty (Py.strip text)) eqn:Hempty.
  { exists (_reset_model_state m).
    split; [done|]. split; [apply reset_tables_inv|].
    do 3 (split; [done|]).
    intros Hne. exfalso. apply Hne. subst sentences.
    by rewrite (is_empty_true _ Hempty). }
  fold sentences.
  pose proof (prepare_sentences_tokens (Py.strip text)) as Hgood.
  fold sentences in Hgood.
  destruct sentences as [|s0 rest] eqn:Hsent.
  { exists (_reset_model_state m).
    split; [done|]. split; [apply reset_tables_inv|].
    by do 3 (split; [done|]). }
  set (mv := _build_vocabulary (_reset_model_state m) (s0 :: rest)).
  destruct (for_each_inv
              (fun s => tables_inv is_target s /\ same_config mv s)
              (fun self sentence =>
                 _update_counts self
                   (times START_TOKEN (n self - 1)
                    ++ _normalize_sentence self sentence ++ [END_TOKEN]))
              (s0 :: rest) mv) as (m1 & Hfit & Hinv & Hcfg).
  - split; [|by repeat split].
    apply build_vocabulary_tables_inv, reset_tables_inv.
  - intros s sentence Hin [Hs Hcfg].
    rewrite Forall_forall in Hgood.
    destruct (Hgood _ Hin) as [_ Htok].
    pose proof Hcfg as (Hns & _). simpl in Hns.
    destruct (update_counts_inv is_target s
                (times START_TOKEN (n s - 1)
                 ++ _normalize_sentence s sentence ++ [END_TOKEN]))
      as (s1 & Hs1 & Hinv1 & Hcfg1); [lia|done| |].
    + intros i w Hi Hw. by eapply padded_targets.
    + exists s1. do 2 (split; [done|]).
      by eapply same_config_trans.
  - rewrite Hfit. simpl.
    destruct Hcfg as (Hn1 & Hmc1 & Hv1 & Htr1). simpl in *.
    eexists; split; [done|]. simpl.
    split; [done|]. do 2 (split; [done|]).
    split; [done|]. intros _. by split.
Qed.

End Training.

(** ** Claims about training *)

Lemma fit_same_config (a b : t) (text : string) :
  n a = n b -> min_count a = min_count b -> fit a text = fit b text.
Proof.
  intros Hn Hmc. unfold fit, _reset_model_state. by rewrite Hn, Hmc.
Qed.

Lemma sum_values_positive (inner : list (string * Z)) :
  inner <> [] -> Forall (fun kv => 1 <= kv.2) inner -> 1 <= sum_values inner.
Proof.
  intros Hne Hall. destruct Hall as [|kv rest Hkv Hrest]; [done|].
  simpl. clear Hne.
  assert (0 <= sum_values rest); [|lia].
  induction Hrest as [|kv' rest' Hkv' _ IH]; simpl; lia.
Qed.

(** C1: for every model and every text, the training call completes, and
    afterwards, for every context key present in the transition table, the
    sum of its next-token counts equals the context-total entry of that
    key. *)
Theorem fit_totals_consistent (m : t) (text : string) :
  2 <= n m ->
  exists m',
    fit m text = Ok m'
    /\ forall ctx inner,
         counts m' !! ctx = Some inner ->
         context_totals m' !! ctx = Some (sum_values inner).
Proof.
  intros Hn. destruct (fit_spec m text Hn) as (m' & Hfit & Hinv & _).
  exists m'. split; [done|]. intros ctx inner Hctx.
  specialize (Hinv ctx). rewrite Hctx in Hinv. by destruct Hinv.
Qed.

Lemma fit_totals_consistent_witness :
  2 <= n bigram_model
  /\ exists m',
       fit bigram_model ab_corpus = Ok m'
       /\ forall ctx inner,
            counts m' !! ctx = Some inner ->
            context_totals m' !! ctx = Some (sum_values inner).
Proof.
  split; [simpl; lia|]. apply (fit_totals_consistent bigram_model ab_corpus).
  simpl; lia.
Defined.

(** C10: after a completed training call, every context key present in the
    transition table has only next-token counts of at least 1 and a
    context-total of at least 1, so the total that the sampler computes for
    such a context is not zero and its zero-total branch is not taken. *)
Theorem trained_totals_positive (m m' : t) (text : string) :
  2 <= n m ->
  fit m text = Ok m' ->
  forall ctx inner,
    counts m' !! ctx = Some inner ->
    Forall (fun kv => 1 <= kv.2) inner
    /\ (exists total, context_totals m' !! ctx = Some total /\ 1 <= total)
    /\ 1 <= context_total m' ctx inner
    /\ (context_total m' ctx inner =? 0) = false.
Proof.
  intros Hn Hfit ctx inner Hctx.
  destruct (fit_spec m text Hn) as (m1 & Hfit1 & Hinv & _).
  rewrite Hfit in Hfit1. injection Hfit1 as <-.
  specialize (Hinv ctx). rewrite Hctx in Hinv.
  destruct Hinv as (Htot & Hne & Hall).
  assert (Forall (fun kv : string * Z => 1 <= kv.2) inner) as Hpos.
  { eapply Forall_impl; [exact Hall|]. by intros kv [? _]. }
  pose proof (sum_values_positive inner Hne Hpos) as Hsum.
  unfold context_total. rewrite Htot.
  split; [done|]. split; [eauto|]. split; [done|]. lia.
Qed.

Lemma trained_totals_positive_witness :
  Forall (fun kv : string * Z => 1 <= kv.2) [("a", 2)]
  /\ (exists total,
        context_totals (fitted bigram_model ab_corpus) !! ["<s>"] = Some total
        /\ 1 <= total)
  /\ 1 <= context_total (fitted bigram_model ab_corpus) ["<s>"] [("a", 2)]
  /\ (context_total (fitted bigram_model ab_corpus) ["<s>"] [("a", 2)] =? 0)
     = false.
Proof.
  apply (trained_totals_positive bigram_model (fitted bigram_model ab_corpus)
           ab_corpus).
  - simpl; lia.
  - vm_compute; reflexivity.
  - vm_compute; reflexivity.
Defined.

(** C6: a model constructed with n=2 and min_count=2 and trained on
    "a b. a b." maps the context ("<s>",) only to "a" with count 2, the
    context ("a",) only to "b" with count 2 and the context ("b",) only to
    the end-marker with count 2; the table has no other context. *)
Theorem bigram_scenario :
  exists m0 m',
    __init__ 2 2 = Ok m0
    /\ fit m0 "a b. a b." = Ok m'
    /\ counts m' !! ["<s>"] = Some [("a", 2)]
    /\ counts m' !! ["a"] = Some [("b", 2)]
    /\ counts m' !! ["b"] = Some [("</s>", 2)]
    /\ dom (counts m') = {[ ["<s>"]; ["a"]; ["b"] ]}.
Proof.
  exists bigram_model, (fitted bigram_model ab_corpus).
  split; [reflexivity|].
  split; [vm_compute; reflexivity|].
  split; [vm_compute; reflexivity|].
  split; [vm_compute; reflexivity|].
  split; [vm_compute; reflexivity|].
  vm_compute; reflexivity.
Qed.

(** C8: training is a full reset.  For every model and all texts t1 and
    t2, both training calls complete, and the state after fit(t1) followed
    by fit(t2) is the state of a freshly constructed model with the same n
    and min_count after fit(t2) alone. *)
Theorem fit_is_full_reset (m m0 : t) (t1 t2 : string) :
  __init__ (n m) (min_count m) = Ok m0 ->
  exists m1 m2,
    fit m t1 = Ok m1 /\ fit m1 t2 = Ok m2 /\ fit m0 t2 = Ok m2.
Proof.
  unfold __init__. destruct (n m <? 2) eqn:Hn; [done|].
  intros [= <-]. assert (2 <= n m) as Hn2 by lia.
  destruct (fit_spec m t1 Hn2) as (m1 & Hfit1 & _ & Hn1 & Hmc1 & _).
  assert (2 <= n m1) as Hn3 by lia.
  destruct (fit_spec m1 t2 Hn3) as (m2 & Hfit2 & _).
  exists m1, m2. split; [done|]. split; [done|].
  rewrite <- Hfit2. by apply fit_same_config.
Qed.

Lemma fit_is_full_reset_witness :
  __init__ (n (fitted trigram_model cat_corpus))
           (min_count (fitted trigram_model cat_corpus)) = Ok trigram_model
  /\ exists m1 m2,
       fit (fitted trigram_model cat_corpus) ab_corpus = Ok m1
       /\ fit m1 cat_corpus = Ok m2
       /\ fit trigram_model cat_corpus = Ok m2.
Proof.
  split; [vm_compute; reflexivity|].
  apply (fit_is_full_reset (fitted trigram_model cat_corpus) trigram_model
           ab_corpus cat_corpus).
  vm_compute; reflexivity.
Defined.

(** C3: training on the empty string or on a whitespace-only string is not
    an error and leaves the model untrained with empty transition and
    context-total tables; a following generate call returns the empty
    string. *)
Theorem fit_blank_untrained {R : Type} `{RandomSource R}
  (m : t) (text : string) (max_length : Z) (r : R) :
  all_chars Py.isspace text = true ->
  exists m',
    fit m text = Ok m'
    /\ _trained m' = false
    /\ counts m' = ∅
    /\ context_totals m' = ∅
    /\ (generate m' max_length r).1.1 = EmptyString.
Proof.
  intros Hblank. exists (_reset_model_state m).
  unfold fit. rewrite (strip_blank _ Hblank). simpl.
  by repeat split.
Qed.

Lemma fit_blank_untrained_witness :
  all_chars Py.isspace ("  " +:+ Py.newline) = true
  /\ exists m',
       fit trigram_model ("  " +:+ Py.newline) = Ok m'
       /\ _trained m' = false
       /\ counts m' = ∅
       /\ context_totals m' = ∅
       /\ (@generate Z lcg_source m' 50 (@seed Z lcg_source 7)).1.1 = EmptyString.
Proof.
  split; [reflexivity|].
  apply (@fit_blank_untrained Z lcg_source trigram_model
           ("  " +:+ Py.newline) 50 (@seed Z lcg_source 7)).
  reflexivity.
Defined.

(** ** Sampling *)

Section SamplingFacts.
Context {R : Type} `{RandomSource R}.

Lemma counts_getitem_present m context inner :
  counts m !! context = Some inner -> counts_getitem m context = (inner, m).
Proof. intros Hc. unfold counts_getitem. by rewrite Hc. Qed.

Lemma sample_from_present m context inner r :
  counts m !! context = Some inner ->
  sample_from m context r =
  let total := context_total m context inner in
  if total =? 0 then (END_TOKEN, m, r)
  else (default END_TOKEN (walk (uniform r 0 total).1 (inject_Z 0) inner),
        m, (uniform r 0 total).2).
Proof.
  intros Hin. unfold sample_from.
  rewrite (counts_getitem_present _ _ _ Hin). cbv zeta.
  destruct (context_total m context inner =? 0); [done|].
  destruct (uniform r 0 (context_total m context inner)) as [thr r'].
  simpl. by destruct (walk thr (inject_Z 0) inner).
Qed.

(** The sampler as a function of the tables: the reads of the outer
    [defaultdict] insert nothing. *)
Lemma sample_next_word_unfold m context r :
  let fallback := times START_TOKEN (n m - 1) in
  let absent := bool_decide (counts m !! context = None) in
  let used := if absent then fallback else context in
  _sample_next_word m context r =
  match counts m !! used with
  | None => (END_TOKEN, m, r)
  | Some inner =>
      let total := context_total m used inner in
      if total =? 0 then (END_TOKEN, m, r)
      else (default END_TOKEN
                    (walk (uniform r 0 total).1 (inject_Z 0) inner),
            m, (uniform r 0 total).2)
  end.
Proof.
  intros fallback absent used. unfold _sample_next_word.
  fold fallback. subst used absent.
  destruct (counts m !! context) as [inner|] eqn:Hctx.
  - rewrite bool_decide_eq_false_2 by done. rewrite Hctx.
    by apply sample_from_present.
  - rewrite bool_decide_eq_true_2 by done.
    destruct (counts m !! fallback) as [inner|] eqn:Hfb.
    + rewrite bool_decide_eq_false_2 by done.
      by apply sample_from_present.
    + by rewrite bool_decide_eq_true_2 by done.
Qed.

Lemma sample_preserves_model m context r :
  (_sample_next_word m context r).1.2 = m.
Proof.
  rewrite sample_next_word_unfold.
  repeat (case_match; simpl; try done).
Qed.

Lemma generate_loop_preserves_model k m context generated r :
  (generate_loop k m context generated r).1.2 = m.
Proof.
  revert m context generated r.
  induction k as [|k IH]; intros m context generated r; simpl; [done|].
  pose proof (sample_preserves_model m context r) as Hm.
  destruct (_sample_next_word m context r) as [[w m1] r1].
  simpl in Hm. subst m1.
  case_decide; [done|]. apply IH.
Qed.

Lemma generate_preserves_model m max_length r :
  (generate m max_length r).1.2 = m.
Proof.
  unfold generate.
  destruct (negb (_trained m) || bool_decide (counts m = ∅)); [done|].
  pose proof (generate_loop_preserves_model (Z.to_nat max_length) m
                (times START_TOKEN (n m - 1)) [] r) as Hm.
  destruct (generate_loop _ _ _ _ _) as [[g m1] r1]. by simpl in *.
Qed.

End SamplingFacts.

Section Walk.

Lemma walk_elem thr c (items : list (string * Z)) w :
  walk thr c items = Some w -> exists cnt, (w, cnt) ∈ items.
Proof.
  revert c. induction items as [|[w' cnt] items IH]; intros c; simpl; [done|].
  destruct (Qle_bool thr (Qplus c (inject_Z cnt))).
  - intros [= <-]. exists cnt. by left.
  - intros [cnt' Hin]%IH. exists cnt'. by right.
Qed.

Lemma walk_None thr c (items : list (string * Z)) :
  walk thr c items = None <->
  forall k, (1 <= k <= length items)%nat ->
            Qlt (Qplus c (inject_Z (sum_values (take k items)))) thr.
Proof.
  revert c. induction items as [|[w cnt] items IH]; intros c; simpl.
  - split; [|done]. intros _ k Hk. lia.
  - destruct (Qle_bool thr (Qplus c (inject_Z cnt))) eqn:Hle.
    + split; [done|]. intros Hall. exfalso.
      apply Qle_bool_iff in Hle.
      specialize (Hall 1%nat ltac:(lia)). simpl in Hall.
      rewrite ?take_0 in Hall. simpl in Hall. rewrite ?Z.add_0_r in Hall.
      by apply Qlt_not_le in Hall.
    + assert (Qlt (Qplus c (inject_Z cnt)) thr) as Hlt.
      { apply Qnot_le_lt. intros Hc. apply Qle_bool_iff in Hc. congruence. }
      rewrite IH. split.
      * intros Hall [|k] Hk; [lia|]. simpl.
        destruct k as [|k].
        { rewrite ?take_0. simpl. by rewrite ?Z.add_0_r. }
        specialize (Hall (S k) ltac:(lia)).
        rewrite inject_Z_plus, Qplus_assoc. done.
      * intros Hall k Hk. specialize (Hall (S k) ltac:(lia)).
        simpl in Hall. rewrite inject_Z_plus, Qplus_assoc in Hall. done.
Qed.

End Walk.



(** C7: two generate calls on the same model instance, each preceded by
    seeding the shared random source with the same value and with no
    training in between, return the same string; the first call leaves the
    model as it was. *)
Theorem generate_deterministic {R : Type} `{RandomSource R}
  (m : t) (max_length v : Z) :
  let '(out1, m1, _) := generate m max_length (seed v) in
  let '(out2, m2, _) := generate m1 max_length (seed v) in
  out1 = out2 /\ m1 = m /\ m2 = m.
Proof.
  pose proof (generate_preserves_model m max_length (seed v)) as Hm.
  destruct (generate m max_length (seed v)) as [[out1 m1] r1] eqn:Hg1.
  simpl in Hm. subst m1. by rewrite Hg1.
Qed.

(** ** The output of generation *)

Section Output.
Context {R : Type} `{RandomSource R}.

Lemma sample_word_target (T : string -> Prop) m context r :
  tables_inv T m -> T END_TOKEN -> T (_sample_next_word m context r).1.1.
Proof.
  intros Hinv Hend. rewrite sample_next_word_unfold. cbv zeta.
  set (used := if bool_decide (counts m !! context = None)
               then times START_TOKEN (n m - 1) else context).
  specialize (Hinv used).
  destruct (counts m !! used) as [inner|]; [|done].
  destruct Hinv as (_ & _ & Hall).
  destruct (context_total m used inner =? 0); [done|]. simpl.
  destruct (walk _ _ inner) as [w|] eqn:Hw; [|done]. simpl.
  apply walk_elem in Hw as [cnt Hin].
  rewrite Forall_forall in Hall. by destruct (Hall _ Hin).
Qed.

Lemma generate_loop_visible k m context generated r :
  tables_inv is_target m ->
  Forall visible generated ->
  Forall visible (generate_loop k m context generated r).1.1.
Proof.
  intros Hinv. revert context generated r.
  induction k as [|k IH]; intros context generated r Hgen; simpl; [done|].
  pose proof (sample_preserves_model m context r) as Hm.
  pose proof (sample_word_target is_target m context r Hinv) as Hw.
  destruct (_sample_next_word m context r) as [[w m1] r1].
  simpl in *. subst m1.
  case_decide; [done|]. apply IH.
  apply Forall_app; split; [done|].
  constructor; [|done]. split; [|done]. apply Hw. by left.
Qed.

End Output.

Section Join.

Lemma append_cons c s1 s2 : String c s1 +:+ s2 = String c (s1 +:+ s2).
Proof. reflexivity. Qed.

Lemma append_nil s : EmptyString +:+ s = s.
Proof. reflexivity. Qed.

Lemma split_space_word w :
  all_chars not_space w = true -> Py.split_space w = [w].
Proof.
  induction w as [|c w IH]; simpl; [done|].
  intros [Hc Hw]%andb_prop. unfold not_space in Hc.
  apply negb_true_iff in Hc. rewrite Hc, (IH Hw). done.
Qed.

Lemma split_space_cons c s :
  Ascii.eqb c " "%char = false ->
  Py.split_space (String c s)
  = match Py.split_space s with
    | p :: ps => String c p :: ps
    | [] => [String c EmptyString]
    end.
Proof. intros Hc. simpl. by rewrite Hc. Qed.

Lemma split_space_append w s :
  all_chars not_space w = true ->
  Py.split_space (w +:+ " " +:+ s) = w :: Py.split_space s.
Proof.
  induction w as [|c w IH].
  - intros _. by rewrite !append_nil.
  - intros [Hc Hw]%andb_prop. unfold not_space in Hc.
    apply negb_true_iff in Hc.
    by rewrite append_cons, split_space_cons, (IH Hw).
Qed.

Lemma split_space_join (l : list string) :
  l <> [] ->
  Forall (fun w => all_chars not_space w = true) l ->
  Py.split_space (Py.join " " l) = l.
Proof.
  intros Hne Hall. induction Hall as [|w l Hw Hl IH]; [done|].
  destruct l as [|w' l]; simpl.
  - by apply split_space_word.
  - rewrite split_space_append by done. f_equal. by apply IH.
Qed.

Lemma word_char_not_space c : Py.isword c = true -> not_space c = true.
Proof.
  intros Hc. unfold not_space. apply negb_true_iff.
  destruct (Ascii.eqb_spec c " "%char) as [->|]; [discriminate|done].
Qed.

Lemma token_no_space w : is_token w -> all_chars not_space w = true.
Proof.
  intros [_ Hw]. induction w as [|c w IH]; simpl in *; [done|].
  apply andb_prop in Hw as [Hc Hw].
  by rewrite (word_char_not_space _ Hc), (IH Hw).
Qed.

Lemma visible_not_marker w :
  visible w ->
  w <> START_TOKEN /\ w <> END_TOKEN /\ all_chars not_space w = true.
Proof.
  intros [[->| [->|Htok]] Hne]; [done|by repeat split|].
  destruct (token_not_marker _ Htok) as (? & ? & _).
  repeat split; try done. by apply token_no_space.
Qed.

End Join.

(** C4: for every trained model, every maxLength and every random source,
    no space-separated token of the string that generate returns is the
    start-marker or the end-marker. *)
Theorem generate_hides_markers {R : Type} `{RandomSource R}
  (m m' : t) (text : string) (max_length : Z) (r : R) :
  2 <= n m ->
  fit m text = Ok m' ->
  forall w,
    w ∈ Py.split_space (generate m' max_length r).1.1 ->
    w <> START_TOKEN /\ w <> END_TOKEN.
Proof.
  intros Hn Hfit w.
  destruct (fit_spec m text Hn) as (m1 & Hfit1 & Hinv & _).
  rewrite Hfit in Hfit1. injection Hfit1 as <-.
  unfold generate.
  destruct (negb (_trained m') || bool_decide (counts m' = ∅)).
  { simpl. intros ->%list_elem_of_singleton. by split. }
  pose proof (generate_loop_visible (Z.to_nat max_length) m'
                (times START_TOKEN (n m' - 1)) [] r Hinv
                (Forall_nil_2 _)) as Hvis.
  destruct (generate_loop _ _ _ _ _) as [[generated m2] r2]. simpl in *.
  destruct generated as [|w0 rest] eqn:Hgen.
  { simpl. intros ->%list_elem_of_singleton. by split. }
  rewrite <- Hgen in *.
  rewrite split_space_join.
  - intros Hw. rewrite Forall_forall in Hvis.
    destruct (visible_not_marker _ (Hvis _ Hw)) as (? & ? & _). by split.
  - by rewrite Hgen.
  - eapply Forall_impl; [exact Hvis|].
    intros x Hx. by destruct (visible_not_marker _ Hx) as (_ & _ & ?).
Qed.

Lemma generate_hides_markers_witness :
  2 <= n trigram_model
  /\ fit trigram_model cat_corpus = Ok (fitted trigram_model cat_corpus)
  /\ forall w,
       w ∈ Py.split_space
             (@generate Z lcg_source (fitted trigram_model cat_corpus) 50
                        (@seed Z lcg_source 7)).1.1 ->
       w <> START_TOKEN /\ w <> END_TOKEN.
Proof.
  split; [simpl; lia|]. split; [vm_compute; reflexivity|].
  apply (@generate_hides_markers Z lcg_source trigram_model
           (fitted trigram_model cat_corpus) cat_corpus 50
           (@seed Z lcg_source 7)).
  - simpl; lia.
  - vm_compute; reflexivity.
Defined.

(** ** The vocabulary *)

Section Vocabulary.

Lemma occurrences_cons x y l :
  occurrences x (y :: l) = (if decide (y = x) then 1 else 0) + occurrences x l.
Proof.
  unfold occurrences. rewrite filter_cons.
  case_decide; simpl; lia.
Qed.

Lemma occurrences_absent x l : x ∉ l -> occurrences x l = 0.
Proof.
  induction l as [|y l IH]; [done|].
  intros Hnin. rewrite occurrences_cons.
  rewrite decide_False by (intros ->; apply Hnin; by left).
  rewrite IH; [done|]. intros Hin. apply Hnin. by right.
Qed.

Lemma Counter_fold (l : list string) (c : gmap string Z) (x : string) :
  foldl (fun c x => <[x := default 0 (c !! x) + 1]> c) c l !! x
  = if decide (x ∈ l) then Some (default 0 (c !! x) + occurrences x l)
    else c !! x.
Proof.
  revert c. induction l as [|y l IH]; intros c; [done|].
  change (foldl ?f c (y :: l)) with (foldl f (f c y) l). cbv beta.
  rewrite IH, occurrences_cons.
  destruct (decide (y = x)) as [->|Hne].
  - rewrite lookup_insert_eq. simpl.
    rewrite (decide_True (P := x ∈ x :: l)) by by left.
    case_decide as Hin.
    + f_equal; lia.
    + rewrite (occurrences_absent _ _ Hin). f_equal; lia.
  - rewrite lookup_insert_ne by done.
    case_decide as Hin.
    + by rewrite decide_True by by right.
    + rewrite decide_False; [done|].
      intros [?|?]%elem_of_cons; congruence.
Qed.

Lemma Counter_lookup (l : list string) (x : string) :
  Counter l !! x = if decide (x ∈ l) then Some (occurrences x l) else None.
Proof.
  unfold Counter. rewrite Counter_fold, lookup_empty. simpl.
  by case_decide.
Qed.

Lemma frequent_elem (mc : Z) (l : list string) (x : string) :
  x ∈ dom (filter (fun kv : string * Z => mc <= kv.2) (Counter l))
  <-> x ∈ l /\ mc <= occurrences x l.
Proof.
  rewrite elem_of_dom. unfold is_Some.
  setoid_rewrite map_lookup_filter_Some. rewrite Counter_lookup. simpl.
  case_decide; split.
  - intros (v & [= <-] & Hv). done.
  - intros [_ Hv]. eauto.
  - intros (v & ? & _). done.
  - intros [? _]. done.
Qed.

Lemma observed_elem (l : list string) (x : string) :
  x ∈ dom (Counter l) <-> x ∈ l.
Proof.
  rewrite elem_of_dom, Counter_lookup.
  case_decide; split; first [done | eauto | by intros [v ?]].
Qed.

Lemma reserved_elem x :
  x ∈ reserved <-> x = START_TOKEN \/ x = END_TOKEN \/ x = UNK_TOKEN.
Proof.
  unfold reserved. rewrite !elem_of_union, !elem_of_singleton. tauto.
Qed.

Lemma build_vocabulary_spec m sentences :
  let corpus := concat sentences in
  let m' := _build_vocabulary m sentences in
  ((exists tok, tok ∈ corpus /\ min_count m <= occurrences tok corpus) ->
   forall tok,
     tok ∈ vocab m' <->
     (tok ∈ corpus /\ min_count m <= occurrences tok corpus)
     \/ tok ∈ reserved)
  /\ ((forall tok, tok ∈ corpus -> occurrences tok corpus < min_count m) ->
      forall tok, tok ∈ vocab m' <-> tok ∈ corpus \/ tok ∈ reserved).
Proof.
  intros corpus m'. subst m'. unfold _build_vocabulary. simpl. fold corpus.
  split.
  - intros (t0 & Hin & Hfreq) tok.
    rewrite decide_False.
    + by rewrite elem_of_union, frequent_elem.
    + intros Hempty.
      assert (t0 ∈ (∅ : gset string)) as Habs; [|set_solver].
      rewrite <- Hempty. by apply frequent_elem.
  - intros Hrare tok.
    rewrite decide_True.
    + by rewrite elem_of_union, observed_elem.
    + apply set_eq. intros x. rewrite frequent_elem. split; [|set_solver].
      intros [Hin Hfreq]. specialize (Hrare _ Hin). lia.
Qed.

End Vocabulary.

(** C2: for every non-empty tokenized corpus, when some token occurs at
    least min_count times, the vocabulary after training holds exactly the
    tokens that occur at least min_count times and the three reserved
    tokens; when no token does, it holds all observed tokens and the three
    reserved tokens. *)
Theorem fit_vocabulary (m m' : t) (text : string) :
  2 <= n m ->
  fit m text = Ok m' ->
  let corpus := concat (_prepare_sentences (Py.strip text)) in
  corpus <> [] ->
  ((exists tok, tok ∈ corpus /\ min_count m <= occurrences tok corpus) ->
   forall tok,
     tok ∈ vocab m' <->
     (tok ∈ corpus /\ min_count m <= occurrences tok corpus)
     \/ tok = START_TOKEN \/ tok = END_TOKEN \/ tok = UNK_TOKEN)
  /\ ((forall tok, tok ∈ corpus -> occurrences tok corpus < min_count m) ->
      forall tok,
        tok ∈ vocab m' <->
        tok ∈ corpus \/ tok = START_TOKEN \/ tok = END_TOKEN \/ tok = UNK_TOKEN).
Proof.
  intros Hn Hfit corpus Hne.
  destruct (fit_spec m text Hn) as (m1 & Hfit1 & _ & _ & _ & _ & Hvocab).
  rewrite Hfit in Hfit1. injection Hfit1 as <-.
  destruct Hvocab as [-> _].
  { intros Hnil. apply Hne. subst corpus. by rewrite Hnil. }
  destruct (build_vocabulary_spec (_reset_model_state m)
              (_prepare_sentences (Py.strip text))) as [Hfreq Hrare].
  simpl in Hfreq, Hrare. fold corpus in Hfreq, Hrare.
  split.
  - intros Hsome tok. rewrite <- reserved_elem. by apply Hfreq.
  - intros Hnone tok. rewrite <- reserved_elem. by apply Hrare.
Qed.

Lemma fit_vocabulary_witness :
  (forall tok,
     tok ∈ vocab (fitted trigram_model cat_corpus) <->
     (tok ∈ concat (_prepare_sentences (Py.strip cat_corpus))
      /\ min_count trigram_model
         <= occurrences tok (concat (_prepare_sentences (Py.strip cat_corpus))))
     \/ tok = START_TOKEN \/ tok = END_TOKEN \/ tok = UNK_TOKEN)
  /\ (forall tok,
        tok ∈ vocab (fitted trigram_model abc_corpus) <->
        tok ∈ concat (_prepare_sentences (Py.strip abc_corpus))
        \/ tok = START_TOKEN \/ tok = END_TOKEN \/ tok = UNK_TOKEN).
Proof.
  split.
  - apply (proj1 (fit_vocabulary trigram_model
                    (fitted trigram_model cat_corpus) cat_corpus
                    ltac:(simpl; lia) ltac:(vm_compute; reflexivity)
                    ltac:(discriminate))).
    exists "the". split; [by left|]. vm_compute. discriminate.
  - apply (proj2 (fit_vocabulary trigram_model
                    (fitted trigram_model abc_corpus) abc_corpus
                    ltac:(simpl; lia) ltac:(vm_compute; reflexivity)
                    ltac:(discriminate))).
    intros tok Hin. apply list_elem_of_In in Hin.
    destruct Hin as [<-|[<-|[<-|[]]]]; reflexivity.
Defined.

(** ** Boilerplate stripping *)

Example strip_gutenberg_both_markers :
  Utils.strip_gutenberg_header_footer
    ("Preface *** START OF THE PROJECT GUTENBERG EBOOK ALICE ***" +:+ Py.newline
     +:+ " Down the rabbit hole. " +:+ Py.newline
     +:+ "*** END OF THE PROJECT GUTENBERG EBOOK ALICE ***" +:+ Py.newline
     +:+ "License")
  = "Down the rabbit hole.".
Proof. reflexivity. Qed.

Example strip_gutenberg_no_marker :
  Utils.strip_gutenberg_header_footer " Down the rabbit hole. "
  = "Down the rabbit hole.".
Proof. reflexivity. Qed.

Example strip_gutenberg_end_only :
  Utils.strip_gutenberg_header_footer
    ("Down the rabbit hole." +:+ Py.newline
     +:+ "*** END OF THE PROJECT GUTENBERG EBOOK ALICE ***")
  = "Down the rabbit hole.".
Proof. reflexivity. Qed.

Example strip_gutenberg_start_only :
  Utils.strip_gutenberg_header_footer
    ("*** START OF THE PROJECT GUTENBERG EBOOK ALICE ***" +:+ Py.newline
     +:+ "Down the rabbit hole.")
  = "Down the rabbit hole.".
Proof. reflexivity. Qed.

Lemma substring_all (s : string) : String.substring 0 (String.length s) s = s.
Proof. induction s as [|c s IH]; simpl; [done|]. by rewrite IH. Qed.

Lemma slice_all (s : string) : Py.slice s 0 (Py.len s) = s.
Proof.
  unfold Py.slice, Py.clamp, Py.len.
  change (0 <? 0) with false. cbv iota.
  destruct (Z.ltb_spec (Z.of_nat (String.length s)) 0); [lia|].
  rewrite Z.min_l by lia. rewrite Z.min_id, Z.sub_0_r, Nat2Z.id.
  apply substring_all.
Qed.

(** Without either marker the whole text is kept, trimmed. *)
Lemma strip_gutenberg_no_markers (raw_text : string) :
  Py.find (Py.lower raw_text) (Py.lower Utils.START_FLAG) 0 = -1 ->
  Py.find (Py.lower raw_text) (Py.lower Utils.END_FLAG) 0 = -1 ->
  Utils.strip_gutenberg_header_footer raw_text = Py.strip raw_text.
Proof.
  intros Hstart Hend. unfold Utils.strip_gutenberg_header_footer.
  destruct raw_text as [|c raw]; [done|].
  cbv zeta. rewrite Hstart, Hend.
  change (Py.is_empty (String c raw)) with false. cbv iota.
  change (negb (-1 =? -1)) with false. change (-1 =? -1) with true. cbv iota.
  by rewrite slice_all.
Qed.

(** C9, at inputs where the start marker is followed by no line break: the
    second [find] returns -1, which is used as a slice bound, so the result
    is the last character of the text.  On the bare start marker the result
    is the final letter of the marker itself; on a one-line text the
    content after the marker is lost except for its last character. *)
Theorem strip_gutenberg_start_without_newline :
  Utils.strip_gutenberg_header_footer
    "*** START OF THE PROJECT GUTENBERG EBOOK" = "K"
  /\ Utils.strip_gutenberg_header_footer
       "*** START OF THE PROJECT GUTENBERG EBOOK ALICE *** Down the rabbit hole."
     = ".".
Proof. split; reflexivity. Qed.

(** The scenario of the three-sentence corpus: "ran" and "dog" are folded
    into the unknown-marker, and the sentence-start context is followed by
    "the" three times. *)
Example cat_scenario :
  vocab (fitted trigram_model cat_corpus)
  = {[ "the"; "cat"; "sat"; START_TOKEN; END_TOKEN; UNK_TOKEN ]}
  /\ counts (fitted trigram_model cat_corpus) !! ["<s>"; "<s>"]
     = Some [("the", 3)]
  /\ counts (fitted trigram_model cat_corpus) !! ["the"; "cat"]
     = Some [("sat", 1); ("<unk>", 1)].
Proof. repeat split; vm_compute; reflexivity. Qed.

Example generate_zero_length :
  (@generate Z lcg_source (fitted trigram_model cat_corpus) 0
             (@seed Z lcg_source 7)).1.1 = EmptyString.
Proof. vm_compute; reflexivity. Qed.

(** * Further properties *)

(** ** What training stores *)

Section Windows.

Lemma window_sum_short k wt (tokens : list string) :
  (length tokens <= k)%nat -> window_sum k wt tokens = 0.
Proof.
  induction tokens as [|x tokens IH]; [done|].
  intros Hlen. cbn [window_sum].
  rewrite lookup_ge_None_2 by done.
  rewrite IH; [done|]. simpl in Hlen. lia.
Qed.

Lemma lslice_take_drop (tokens : list string) (a k : nat) :
  (a + k <= length tokens)%nat ->
  Py.lslice tokens (Z.of_nat a) (Z.of_nat a + Z.of_nat k)
  = take k (drop a tokens).
Proof.
  intros Hlen. unfold Py.lslice, Py.clamp.
  destruct (Z.ltb_spec (Z.of_nat a) 0); [lia|].
  destruct (Z.ltb_spec (Z.of_nat a + Z.of_nat k) 0); [lia|].
  rewrite !Z.min_l by lia.
  replace (Z.to_nat (Z.of_nat a + Z.of_nat k - Z.of_nat a)) with k by lia.
  by rewrite Nat2Z.id.
Qed.

Lemma getitem_lookup (tokens : list string) (i : nat) (x : string) :
  tokens !! i = Some x -> getitem tokens (Z.of_nat i) = Ok x.
Proof.
  intros Hx. unfold getitem.
  destruct (Z.ltb_spec (Z.of_nat i) 0); [lia|].
  destruct (Z.ltb_spec (Z.of_nat i) 0); [lia|].
  by rewrite Nat2Z.id, Hx.
Qed.

(** What one call of [_update_counts] adds to an additive observation of
    the tables. *)
Lemma update_counts_window_sum (obs : t -> Z) (wt : list string -> string -> Z)
  (m m' : t) (tokens : list string) :
  (forall s c w, obs (incr_counts s c w) = obs s + wt c w) ->
  1 <= n m ->
  _update_counts m tokens = Ok m' ->
  obs m' = obs m + window_sum (Z.to_nat (n m - 1)) wt tokens.
Proof.
  intros Hobs Hn. unfold _update_counts.
  set (k := Z.to_nat (n m - 1)).
  assert (n m - 1 = Z.of_nat k) as Hk by lia.
  set (body := fun (self : t) (idx : Z) => _).
  assert (forall s (a : nat) w,
            n s = n m -> tokens !! (a + k)%nat = Some w ->
            body s (Z.of_nat a)
            = Ok (incr_counts s (take k (drop a tokens)) w)) as Hbody.
  { intros s a w Hns Hw. subst body. cbv beta. rewrite Hns.
    replace (Z.of_nat a + n m - 1) with (Z.of_nat (a + k)) by lia.
    rewrite (getitem_lookup _ _ _ Hw). simpl.
    replace (Z.of_nat (a + k)) with (Z.of_nat a + Z.of_nat k) by lia.
    rewrite lslice_take_drop; [done|].
    apply lookup_lt_Some in Hw. lia. }
  clearbody body.
  assert (forall suf pre s,
            tokens = pre ++ suf -> n s = n m ->
            for_each body s
              (seqZ (Z.of_nat (length pre))
                    (Z.of_nat (length tokens) - (n m - 1)
                     - Z.of_nat (length pre))) = Ok m' ->
            obs m' = obs s + window_sum k wt suf) as Hgen.
  { induction suf as [|x suf IH]; intros pre s Htok Hns Hrun.
    - rewrite seqZ_nil in Hrun.
      + injection Hrun as <-. simpl. lia.
      + rewrite Htok, length_app. simpl. lia.
    - destruct (decide (length (x :: suf) <= k)%nat) as [Hshort|Hlong].
      + rewrite seqZ_nil in Hrun.
        * injection Hrun as <-. rewrite window_sum_short by done. lia.
        * rewrite Htok, length_app. simpl in *. lia.
      + rewrite seqZ_cons in Hrun
          by (rewrite Htok, length_app; simpl in *; lia).
        cbn [for_each] in Hrun.
        destruct (lookup_lt_is_Some_2 (x :: suf) k) as [w Hw]; [lia|].
        assert (tokens !! (length pre + k)%nat = Some w) as Hw'.
        { rewrite Htok, lookup_app_r by lia.
          by replace (length pre + k - length pre)%nat with k by lia. }
        rewrite (Hbody s (length pre) w Hns Hw') in Hrun. simpl in Hrun.
        rewrite Htok, drop_app_length in Hrun. rewrite <- Htok in Hrun.
        cbn [window_sum]. rewrite Hw.
        specialize (IH (pre ++ [x])
                       (incr_counts s (take k (x :: suf)) w)).
        rewrite length_app in IH. simpl in IH.
        rewrite IH.
        * rewrite Hobs. lia.
        * by rewrite <- app_assoc.
        * done.
        * replace (Z.of_nat (length pre + 1)) with
            (Z.succ (Z.of_nat (length pre))) by lia.
          replace (Z.of_nat (length tokens) - (n m - 1)
                   - Z.succ (Z.of_nat (length pre)))
            with (Z.pred (Z.of_nat (length tokens) - (n m - 1)
                          - Z.of_nat (length pre))) by lia.
          done. }
  intros Hrun. apply (Hgen tokens [] m); [done|done|].
  simpl. by rewrite Z.sub_0_r.
Qed.

End Windows.

Section Exact.

Lemma sum_over_ext {A : Type} (f g : A -> Z) (l : list A) :
  (forall x, f x = g x) -> sum_over f l = sum_over g l.
Proof. intros Hfg. induction l as [|x l IH]; simpl; [done|]. by rewrite Hfg, IH. Qed.

Lemma padded_sentence_config (m0 m1 : t) sentence :
  same_config m0 m1 -> padded_sentence m1 sentence = padded_sentence m0 sentence.
Proof.
  intros (Hn & _ & Hv & _). unfold padded_sentence, _normalize_sentence.
  by rewrite Hn, Hv.
Qed.

(** What a training call adds up, for an additive observation of the two
    tables. *)
Lemma fit_window_sum (obs : t -> Z) (wt : list string -> string -> Z)
  (m m' : t) (text : string) :
  (forall s c w, obs (incr_counts s c w) = obs s + wt c w) ->
  (forall m1 m2, counts m1 = counts m2 ->
                 context_totals m1 = context_totals m2 -> obs m1 = obs m2) ->
  2 <= n m ->
  fit m text = Ok m' ->
  obs m' = obs (_reset_model_state m)
           + sum_over (fun sentence =>
                         window_sum (Z.to_nat (n m - 1)) wt
                                    (padded_sentence m' sentence))
                      (_prepare_sentences (Py.strip text)).
Proof.
  intros Hobs Htab Hn. unfold fit.
  destruct (Py.is_empty (Py.strip text)) eqn:Hempty.
  { intros [= <-]. rewrite (is_empty_true _ Hempty). simpl. lia. }
  destruct (_prepare_sentences (Py.strip text)) as [|s0 rest] eqn:Hsent.
  { intros [= <-]. simpl. lia. }
  set (mv := _build_vocabulary (_reset_model_state m) (s0 :: rest)).
  set (body := fun (self : t) (sentence : list string) => _).
  assert (forall s sentence,
            body s sentence = _update_counts s (padded_sentence s sentence))
    as Hbody by done.
  clearbody body.
  assert (forall l s s1,
            tables_inv (fun _ => True) s -> same_config mv s ->
            for_each body s l = Ok s1 ->
            same_config mv s1
            /\ obs s1 = obs s
                 + sum_over (fun sentence =>
                               window_sum (Z.to_nat (n m - 1)) wt
                                          (padded_sentence mv sentence)) l)
    as Hloop.
  { induction l as [|sentence l IH]; intros s s1 Hinv Hcfg Hrun.
    - injection Hrun as <-. split; [done|]. simpl. lia.
    - cbn [for_each] in Hrun.
      assert (n s = n m) as Hns by (by destruct Hcfg as (-> & _)).
      destruct (update_counts_inv (fun _ => True) s
                  (padded_sentence s sentence))
        as (s2 & Hs2 & Hinv2 & Hcfg2); [lia|done|done|].
      rewrite Hbody, Hs2 in Hrun. simpl in Hrun.
      assert (same_config mv s2) as Hcfg3
        by (by eapply same_config_trans).
      destruct (IH s2 s1 Hinv2 Hcfg3 Hrun) as [Hcfg4 Hsum].
      split; [done|]. rewrite Hsum.
      rewrite (update_counts_window_sum obs wt s s2 _ Hobs) by (done || lia).
      rewrite Hns, (padded_sentence_config mv s) by done.
      simpl. lia. }
  destruct (for_each body mv (s0 :: rest)) as [m1|e] eqn:Hrun; [|done].
  cbv [mbind result_bind]. intros [= <-].
  destruct (Hloop (s0 :: rest) mv m1) as [Hcfg Hsum]; [| |done|].
  { apply build_vocabulary_tables_inv, reset_tables_inv. }
  { by repeat split. }
  rewrite (Htab _ m1) by done. rewrite Hsum.
  assert (obs mv = obs (_reset_model_state m)) as -> by (by apply Htab).
  f_equal. apply sum_over_ext.
  assert (forall sentence,
            padded_sentence
              (Build (n m1) (min_count m1) (counts m1) (context_totals m1)
                     (vocab m1) true) sentence
            = padded_sentence mv sentence) as Hpad.
  { intros sentence. destruct Hcfg as (Hn1 & _ & Hv1 & _).
    unfold padded_sentence, _normalize_sentence. simpl. by rewrite Hn1, Hv1. }
  intros sentence. by rewrite Hpad.
Qed.

Lemma dict_get_incr (t w : string) (d : list (string * Z)) :
  dict_get w (dict_incr t d)
  = dict_get w d + (if decide (t = w) then 1 else 0).
Proof.
  induction d as [|[k v] d IH]; simpl.
  - case_decide; lia.
  - destruct (decide (k = t)) as [->|Hkt]; simpl.
    + case_decide; lia.
    + destruct (decide (k = w)) as [->|Hkw].
      * rewrite decide_False by done. lia.
      * done.
Qed.

Lemma stored_count_incr s c t ctx w :
  stored_count (incr_counts s c t) ctx w
  = stored_count s ctx w + (if decide (c = ctx /\ t = w) then 1 else 0).
Proof.
  unfold stored_count, incr_counts. simpl.
  destruct (decide (c = ctx)) as [->|Hne].
  - rewrite lookup_insert_eq, dict_get_incr.
    assert (dict_get w (default [] (counts s !! ctx))
            = match counts s !! ctx with
              | Some inner => dict_get w inner
              | None => 0
              end) as -> by (by destruct (counts s !! ctx)).
    f_equal. destruct (decide (t = w)) as [->|Hne].
    + by rewrite decide_True.
    + rewrite decide_False; [done|]. by intros [_ ?].
  - rewrite lookup_insert_ne by done.
    rewrite decide_False; [lia|]. by intros [? _].
Qed.

Lemma stored_total_incr s c t ctx :
  stored_total (incr_counts s c t) ctx
  = stored_total s ctx + (if decide (c = ctx) then 1 else 0).
Proof.
  unfold stored_total, incr_counts. simpl.
  destruct (decide (c = ctx)) as [->|Hne].
  - by rewrite lookup_insert_eq.
  - rewrite lookup_insert_ne by done. lia.
Qed.

Lemma window_sum_ngram (ctx : list string) (w : string) (tokens : list string) :
  window_sum (length ctx)
             (fun c t => if decide (c = ctx /\ t = w) then 1 else 0) tokens
  = ngram_occurrences (ctx ++ [w]) tokens.
Proof.
  induction tokens as [|x tokens IH]; [done|].
  cbn [window_sum ngram_occurrences]. rewrite IH. f_equal.
  rewrite length_app. change (length [w]) with 1%nat. rewrite Nat.add_1_r.
  destruct ((x :: tokens) !! length ctx) as [t|] eqn:Ht.
  - rewrite (take_S_r _ _ _ Ht).
    destruct (decide (take (length ctx) (x :: tokens) = ctx /\ t = w))
      as [[Hc Hw]|Hno].
    + rewrite decide_True; [done|]. by rewrite Hc, Hw.
    + rewrite decide_False; [done|].
      intros Heq%app_inj_tail. by apply Hno.
  - rewrite decide_False; [done|].
    intros Heq. apply lookup_ge_None_1 in Ht.
    apply (f_equal length) in Heq.
    rewrite length_take, length_app in Heq. simpl in *. lia.
Qed.

Lemma window_sum_context (ctx : list string) (tokens : list string) :
  window_sum (length ctx) (fun c _ => if decide (c = ctx) then 1 else 0) tokens
  = context_occurrences ctx tokens.
Proof.
  induction tokens as [|x tokens IH]; [done|].
  cbn [window_sum context_occurrences]. rewrite IH. f_equal.
  destruct ((x :: tokens) !! length ctx) as [t|] eqn:Ht.
  - apply lookup_lt_Some in Ht.
    destruct (decide (take (length ctx) (x :: tokens) = ctx)) as [Hc|Hno].
    + by rewrite decide_True.
    + rewrite decide_False; [done|]. by intros [? _].
  - apply lookup_ge_None_1 in Ht.
    rewrite decide_False; [done|]. intros [_ ?]. lia.
Qed.

End Exact.

Section Shape.

Lemma dict_get_positive (w : string) (c : Z) (d : list (string * Z)) :
  Forall (fun kv : string * Z => 1 <= kv.2) d -> (w, c) ∈ d -> 1 <= dict_get w d.
Proof.
  induction 1 as [|[k v] d Hv Hd IH]; intros Hin.
  - by apply elem_of_nil in Hin.
  - simpl in *. case_decide; [done|].
    apply elem_of_cons in Hin as [[= -> ->]|Hin]; [done|]. by apply IH.
Qed.

Lemma window_sum_nonneg k wt (tokens : list string) :
  (forall c t, 0 <= wt c t) -> 0 <= window_sum k wt tokens.
Proof.
  intros Hwt. induction tokens as [|x tokens IH]; [done|].
  cbn [window_sum]. destruct ((x :: tokens) !! k) as [t|]; [|lia].
  specialize (Hwt (take k (x :: tokens)) t). lia.
Qed.

Lemma window_sum_positive k wt (tokens : list string) :
  (forall c t, 0 <= wt c t) ->
  0 < window_sum k wt tokens ->
  exists pre suf t,
    tokens = pre ++ suf /\ suf !! k = Some t /\ 0 < wt (take k suf) t.
Proof.
  intros Hwt. induction tokens as [|x tokens IH]; [simpl; lia|].
  cbn [window_sum]. intros Hpos.
  destruct ((x :: tokens) !! k) as [t|] eqn:Ht.
  - destruct (decide (0 < wt (take k (x :: tokens)) t)) as [Hw|Hw].
    + exists [], (x :: tokens), t. by repeat split.
    + destruct IH as (pre & suf & t' & -> & Hsuf & Hwt');
        [specialize (Hwt (take k (x :: tokens)) t); lia|].
      exists (x :: pre), suf, t'. by repeat split.
  - destruct IH as (pre & suf & t' & -> & Hsuf & Hwt'); [lia|].
    exists (x :: pre), suf, t'. by repeat split.
Qed.

Lemma sum_over_nonneg {A : Type} (f : A -> Z) (l : list A) :
  (forall x, 0 <= f x) -> 0 <= sum_over f l.
Proof.
  intros Hf. induction l as [|x l IH]; simpl; [done|].
  specialize (Hf x). lia.
Qed.

Lemma sum_over_positive {A : Type} (f : A -> Z) (l : list A) :
  (forall x, 0 <= f x) -> 0 < sum_over f l -> exists x, x ∈ l /\ 0 < f x.
Proof.
  intros Hf. induction l as [|x l IH]; simpl; [lia|].
  intros Hpos. destruct (decide (0 < f x)) as [Hx|Hx].
  - exists x. split; [by left|done].
  - destruct IH as (y & Hy & Hfy); [lia|].
    exists y. split; [by right|done].
Qed.

(** A stored pair is a window of some padded sentence. *)
Lemma stored_pair_window (m m' : t) (text : string) (ctx : list string)
  (w : string) :
  2 <= n m ->
  fit m text = Ok m' ->
  1 <= stored_count m' ctx w ->
  exists sentence pre suf,
    sentence ∈ _prepare_sentences (Py.strip text)
    /\ padded_sentence m' sentence = pre ++ suf
    /\ suf !! Z.to_nat (n m - 1) = Some w
    /\ take (Z.to_nat (n m - 1)) suf = ctx.
Proof.
  intros Hn Hfit Hpos.
  pose proof (fit_window_sum (fun s => stored_count s ctx w)
                (fun c t => if decide (c = ctx /\ t = w) then 1 else 0)
                m m' text) as Hsum.
  rewrite Hsum in Hpos; try done.
  - change (stored_count (_reset_model_state m) ctx w) with 0 in Hpos.
    assert (forall c t : _, 0 <= (if decide (c = ctx /\ t = w) then 1 else 0))
      as Hwt by (intros c t; case_decide; lia).
    rewrite Z.add_0_l in Hpos.
    apply (Z.lt_le_trans 0 1) in Hpos; [|lia].
    apply sum_over_positive in Hpos as (sentence & Hin & Hs);
      [|intros sentence; by apply window_sum_nonneg].
    apply window_sum_positive in Hs as (pre & suf & t' & Hpad & Hsuf & Ht');
      [|done].
    case_decide as Heq; [|lia]. destruct Heq as [Hc ->].
    by exists sentence, pre, suf.
  - intros s c t. apply stored_count_incr.
  - intros m1 m2 Hc _. unfold stored_count. by rewrite Hc.
Qed.

Lemma padded_sentence_vocab (m : t) (sentence : list string) :
  reserved ⊆ vocab m -> Forall (fun tok => tok ∈ vocab m) (padded_sentence m sentence).
Proof.
  intros Hres. unfold padded_sentence.
  assert (START_TOKEN ∈ vocab m /\ END_TOKEN ∈ vocab m /\ UNK_TOKEN ∈ vocab m)
    as (Hs & He & Hu).
  { repeat split; apply Hres, reserved_elem; tauto. }
  rewrite !Forall_app. repeat split.
  - apply Forall_forall. intros x Hx%elem_of_replicate_inv. by subst.
  - rewrite normalize_sentence_map. apply Forall_forall.
    intros x (tok & -> & _)%list_elem_of_fmap. by case_decide.
  - by constructor.
Qed.

End Shape.

Section StartContext.

Lemma ngram_occurrences_nonneg (g tokens : list string) :
  0 <= ngram_occurrences g tokens.
Proof.
  induction tokens as [|x tokens IH]; [done|].
  cbn [ngram_occurrences]. case_decide; lia.
Qed.

Lemma ngram_occurrences_prefix (g post : list string) :
  g <> [] -> 1 <= ngram_occurrences g (g ++ post).
Proof.
  intros Hg. destruct g as [|x g]; [done|].
  change ((x :: g) ++ post) with (x :: (g ++ post)).
  cbn [ngram_occurrences].
  rewrite decide_True.
  - pose proof (ngram_occurrences_nonneg (x :: g) (g ++ post)). lia.
  - change (x :: (g ++ post)) with ((x :: g) ++ post).
    apply take_app_length.
Qed.

Lemma normalized_not_marker (m : t) (sentence : list string) :
  Forall is_token sentence ->
  Forall (fun x => x <> START_TOKEN /\ x <> END_TOKEN /\ x <> EmptyString)
         (_normalize_sentence m sentence).
Proof.
  intros Htok. rewrite normalize_sentence_map.
  apply Forall_forall. intros x (tok & -> & Hin)%list_elem_of_fmap.
  case_decide; [|done].
  rewrite Forall_forall in Htok. specialize (Htok _ Hin).
  destruct (token_not_marker _ Htok) as (? & ? & _).
  destruct Htok as [? _]. done.
Qed.

Lemma snoc_cases {A : Type} (l : list A) :
  l = [] \/ exists l' e, l = l' ++ [e].
Proof. induction l as [|e l' _] using rev_ind; [by left|right; eauto]. Qed.

Lemma no_end_after_start (k : nat) (norm pre post : list string) :
  (0 < k)%nat ->
  norm <> [] ->
  Forall (fun x => x <> START_TOKEN /\ x <> END_TOKEN /\ x <> EmptyString) norm ->
  replicate k START_TOKEN ++ norm ++ [END_TOKEN]
  = pre ++ replicate k START_TOKEN ++ END_TOKEN :: post ->
  False.
Proof.
  intros Hk Hne Hnorm Heq. rewrite Forall_forall in Hnorm.
  destruct (snoc_cases post) as [->|(post' & e & ->)].
  - replace (pre ++ replicate k START_TOKEN ++ [END_TOKEN])
      with ((pre ++ replicate k START_TOKEN) ++ [END_TOKEN]) in Heq
      by (by rewrite <- app_assoc).
    rewrite app_assoc in Heq. apply app_inj_tail in Heq as [Heq _].
    apply (f_equal last) in Heq.
    destruct k as [|k]; [lia|].
    rewrite replicate_S_end in Heq at 2.
    rewrite (app_assoc pre), last_snoc in Heq.
    apply last_Some in Heq as (l' & Heq).
    destruct (snoc_cases norm) as [->|(norm' & e & ->)]; [done|].
    rewrite app_assoc in Heq. apply app_inj_tail in Heq as [_ ->].
    destruct (Hnorm START_TOKEN) as [? _]; [|done].
    apply elem_of_app. right. by left.
  - replace (pre ++ replicate k START_TOKEN ++ END_TOKEN :: post' ++ [e])
      with ((pre ++ replicate k START_TOKEN ++ END_TOKEN :: post') ++ [e])
      in Heq by (by rewrite <- !app_assoc).
    rewrite app_assoc in Heq. apply app_inj_tail in Heq as [Heq _].
    assert (END_TOKEN ∈ replicate k START_TOKEN ++ norm) as Hin.
    { rewrite Heq. rewrite !elem_of_app. right. right. by left. }
    apply elem_of_app in Hin as [Hin%elem_of_replicate_inv|Hin]; [done|].
    by destruct (Hnorm _ Hin) as (_ & ? & _).
Qed.

Lemma fit_vocab_reserved (m m' : t) (text : string) :
  2 <= n m -> fit m text = Ok m' -> reserved ⊆ vocab m'.
Proof.
  intros Hn Hfit.
  destruct (fit_spec m text Hn) as (m1 & Hfit1 & _ & _ & _ & Hnil & Hcons).
  rewrite Hfit in Hfit1. injection Hfit1 as <-.
  destruct (_prepare_sentences (Py.strip text)) as [|s0 rest] eqn:Hsent.
  - by rewrite Hnil.
  - destruct Hcons as [-> _]; [done|]. simpl. apply union_subseteq_r.
Qed.

End StartContext.

(** The stored count as a sum over the windows that training visits. *)
Lemma stored_count_window_sum (m m' : t) (text : string)
  (ctx : list string) (w : string) :
  2 <= n m ->
  fit m text = Ok m' ->
  stored_count m' ctx w
  = sum_over (fun sentence =>
                window_sum (Z.to_nat (n m - 1))
                  (fun c t => if decide (c = ctx /\ t = w) then 1 else 0)
                  (padded_sentence m' sentence))
             (_prepare_sentences (Py.strip text)).
Proof.
  intros Hn Hfit.
  rewrite (fit_window_sum (fun s => stored_count s ctx w)
             (fun c t => if decide (c = ctx /\ t = w) then 1 else 0)
             m m' text); try done.
  - intros s c t. apply stored_count_incr.
  - intros m1 m2 Hc _. unfold stored_count. by rewrite Hc.
Qed.

(** X1: after a training call, the count stored for a context of n-1
    tokens and a target is the number of places in the padded, normalized
    sentences at which the context followed by the target occurs (0 when
    the pair is not stored). *)
Theorem fit_counts_are_ngram_counts (m m' : t) (text : string) :
  2 <= n m ->
  fit m text = Ok m' ->
  forall (ctx : list string) (w : string),
    length ctx = Z.to_nat (n m - 1) ->
    stored_count m' ctx w
    = sum_over (fun sentence =>
                  ngram_occurrences (ctx ++ [w]) (padded_sentence m' sentence))
               (_prepare_sentences (Py.strip text)).
Proof.
  intros Hn Hfit ctx w Hlen.
  rewrite (stored_count_window_sum m m' text ctx w Hn Hfit).
  apply sum_over_ext. intros sentence.
  rewrite <- Hlen. apply window_sum_ngram.
Qed.

Lemma fit_counts_are_ngram_counts_witness :
  stored_count (fitted trigram_model cat_corpus) ["<s>"; "<s>"] "the"
  = sum_over (fun sentence =>
                ngram_occurrences
                  (["<s>"; "<s>"] ++ ["the"])
                  (padded_sentence (fitted trigram_model cat_corpus) sentence))
             (_prepare_sentences (Py.strip cat_corpus)).
Proof.
  apply (fit_counts_are_ngram_counts trigram_model
           (fitted trigram_model cat_corpus) cat_corpus).
  - simpl; lia.
  - vm_compute; reflexivity.
  - reflexivity.
Defined.

(** X2: after a training call, the total stored for a context of n-1
    tokens is the number of places in the padded, normalized sentences at
    which the context occurs followed by one more token. *)
Theorem fit_totals_are_context_counts (m m' : t) (text : string) :
  2 <= n m ->
  fit m text = Ok m' ->
  forall ctx : list string,
    length ctx = Z.to_nat (n m - 1) ->
    stored_total m' ctx
    = sum_over (fun sentence =>
                  context_occurrences ctx (padded_sentence m' sentence))
               (_prepare_sentences (Py.strip text)).
Proof.
  intros Hn Hfit ctx Hlen.
  rewrite (fit_window_sum (fun s => stored_total s ctx)
             (fun c _ => if decide (c = ctx) then 1 else 0)
             m m' text); try done.
  - change (stored_total (_reset_model_state m) ctx) with 0.
    rewrite Z.add_0_l. apply sum_over_ext. intros sentence.
    rewrite <- Hlen. apply window_sum_context.
  - intros s c t. apply stored_total_incr.
  - intros m1 m2 _ Ht. unfold stored_total. by rewrite Ht.
Qed.

Lemma fit_totals_are_context_counts_witness :
  stored_total (fitted trigram_model cat_corpus) ["<s>"; "the"]
  = sum_over (fun sentence =>
                context_occurrences
                  ["<s>"; "the"]
                  (padded_sentence (fitted trigram_model cat_corpus) sentence))
             (_prepare_sentences (Py.strip cat_corpus)).
Proof.
  apply (fit_totals_are_context_counts trigram_model
           (fitted trigram_model cat_corpus) cat_corpus).
  - simpl; lia.
  - vm_compute; reflexivity.
  - reflexivity.
Defined.

(** A stored pair consists of vocabulary tokens, and its context has n-1
    of them. *)
Lemma stored_pair_shape (m m' : t) (text : string) (ctx : list string)
  (inner : list (string * Z)) (w : string) (c : Z) :
  2 <= n m ->
  fit m text = Ok m' ->
  counts m' !! ctx = Some inner ->
  (w, c) ∈ inner ->
  length ctx = Z.to_nat (n m - 1)
  /\ Forall (fun tok => tok ∈ vocab m') ctx
  /\ w ∈ vocab m'.
Proof.
  intros Hn Hfit Hctx Hin.
  destruct (fit_spec m text Hn) as (m1 & Hfit1 & Hinv & _).
  rewrite Hfit in Hfit1. injection Hfit1 as <-.
  specialize (Hinv ctx). rewrite Hctx in Hinv.
  destruct Hinv as (_ & Hne & Hall).
  assert (Forall (fun kv : string * Z => 1 <= kv.2) inner) as Hpos.
  { eapply Forall_impl; [exact Hall|]. by intros kv [? _]. }
  destruct (stored_pair_window m m' text ctx w Hn Hfit)
    as (sentence & pre & suf & _ & Hpad & Hw & Htake).
  { unfold stored_count. rewrite Hctx. by eapply dict_get_positive. }
  pose proof (padded_sentence_vocab m' sentence
                (fit_vocab_reserved m m' text Hn Hfit)) as Hvoc.
  rewrite Hpad in Hvoc. apply Forall_app in Hvoc as [_ Hsuf].
  rewrite Forall_forall in Hsuf. split; [|split].
  - rewrite <- Htake, length_take. apply lookup_lt_Some in Hw. lia.
  - rewrite <- Htake. apply Forall_forall. intros x Hx.
    apply Hsuf. by eapply subseteq_take.
  - apply Hsuf. by eapply list_elem_of_lookup_2.
Qed.

Lemma stored_inner_nonempty (m m' : t) (text : string) (ctx : list string)
  (inner : list (string * Z)) :
  2 <= n m ->
  fit m text = Ok m' ->
  counts m' !! ctx = Some inner ->
  exists w c, (w, c) ∈ inner.
Proof.
  intros Hn Hfit Hctx.
  destruct (fit_spec m text Hn) as (m1 & Hfit1 & Hinv & _).
  rewrite Hfit in Hfit1. injection Hfit1 as <-.
  specialize (Hinv ctx). rewrite Hctx in Hinv.
  destruct Hinv as (_ & Hne & _).
  destruct inner as [|[w c] inner']; [done|].
  exists w, c. by left.
Qed.

(** X3: after a training call, every context key of the transition table
    has exactly n-1 tokens, and every token of a key and every stored
    successor belongs to the vocabulary. *)
Theorem fit_tables_shape (m m' : t) (text : string) :
  2 <= n m ->
  fit m text = Ok m' ->
  forall (ctx : list string) (inner : list (string * Z)),
    counts m' !! ctx = Some inner ->
    length ctx = Z.to_nat (n m - 1)
    /\ Forall (fun tok => tok ∈ vocab m') ctx
    /\ Forall (fun kv => kv.1 ∈ vocab m') inner.
Proof.
  intros Hn Hfit ctx inner Hctx.
  destruct (stored_inner_nonempty m m' text ctx inner Hn Hfit Hctx)
    as (w0 & c0 & Hin0).
  destruct (stored_pair_shape m m' text ctx inner w0 c0 Hn Hfit Hctx Hin0)
    as (Hlen & Hvctx & _).
  split; [done|]. split; [done|].
  apply Forall_forall. intros [w c] Hin. simpl.
  by destruct (stored_pair_shape m m' text ctx inner w c Hn Hfit Hctx Hin)
    as (_ & _ & ?).
Qed.

Lemma fit_tables_shape_witness :
  length ["the"; "cat"] = Z.to_nat (n trigram_model - 1)
  /\ Forall (fun tok => tok ∈ vocab (fitted trigram_model cat_corpus))
            ["the"; "cat"]
  /\ Forall (fun kv : string * Z =>
               kv.1 ∈ vocab (fitted trigram_model cat_corpus))
            [("sat", 1); ("<unk>", 1)].
Proof.
  apply (fit_tables_shape trigram_model (fitted trigram_model cat_corpus)
           cat_corpus).
  - simpl; lia.
  - vm_compute; reflexivity.
  - vm_compute; reflexivity.
Defined.

(** When the text has a sentence, the start context is a key, and none of
    its successors is the end-marker. *)
Lemma start_context_present (m m' : t) (text : string) :
  2 <= n m ->
  fit m text = Ok m' ->
  _prepare_sentences (Py.strip text) <> [] ->
  exists inner,
    counts m' !! times START_TOKEN (n m - 1) = Some inner
    /\ inner <> []
    /\ Forall (fun kv => kv.1 <> END_TOKEN /\ kv.1 <> EmptyString) inner.
Proof.
  intros Hn Hfit Hsome.
  destruct (fit_spec m text Hn) as (m1 & Hfit1 & Hinv & _ & _ & Hnil & Hcons).
  rewrite Hfit in Hfit1. injection Hfit1 as <-.
  pose proof (prepare_sentences_tokens (Py.strip text)) as Hgood.
  destruct (_prepare_sentences (Py.strip text)) as [|s0 rest] eqn:Hsent;
    [done|].
  destruct Hcons as [Hvoc Htr]; [done|].
  set (starts := times START_TOKEN (n m - 1)).
  assert (length starts = Z.to_nat (n m - 1)) as Hlen
    by (unfold starts, times; by rewrite length_replicate).
  apply Forall_cons in Hgood as [[Hs0 Htok0] Hrest].
  destruct s0 as [|t0 s0']; [done|].
  (* the first window of the first sentence *)
  assert (1 <= stored_count m' starts
                 (if decide (t0 ∈ vocab m') then t0 else UNK_TOKEN)) as Hfirst.
  { rewrite (stored_count_window_sum m m' text _ _ Hn Hfit).
    rewrite (sum_over_ext _
               (fun sentence =>
                  ngram_occurrences
                    (starts ++ [if decide (t0 ∈ vocab m') then t0
                                else UNK_TOKEN])
                    (padded_sentence m' sentence)))
      by (intros sentence; rewrite <- Hlen; apply window_sum_ngram).
    rewrite Hsent. cbn [sum_over foldr].
    pose proof (sum_over_nonneg
                  (fun sentence =>
                     ngram_occurrences
                       (starts ++ [if decide (t0 ∈ vocab m') then t0
                                   else UNK_TOKEN])
                       (padded_sentence m' sentence)) rest
                  (fun x => ngram_occurrences_nonneg _ _)) as Hnn.
    unfold sum_over in Hnn.
    assert (1 <= ngram_occurrences
                   (starts ++ [if decide (t0 ∈ vocab m') then t0
                               else UNK_TOKEN])
                   (padded_sentence m' (t0 :: s0'))); [|lia].
    unfold padded_sentence. rewrite normalize_sentence_map. simpl.
    destruct (fit_spec m text Hn) as (m2 & Hfit2 & _ & Hn2 & _).
    rewrite Hfit in Hfit2. injection Hfit2 as <-. rewrite Hn2. fold starts.
    set (w0 := if decide (t0 ∈ vocab m') then t0 else UNK_TOKEN).
    match goal with
    | |- 1 <= ngram_occurrences _ (starts ++ w0 :: ?post) =>
        replace (starts ++ w0 :: post) with ((starts ++ [w0]) ++ post)
          by (by rewrite <- app_assoc)
    end.
    apply ngram_occurrences_prefix. intros Habs.
    by apply app_eq_nil in Habs as [_ ?]. }
  unfold stored_count in Hfirst.
  destruct (counts m' !! starts) as [inner|] eqn:Hctx; [|lia].
  exists inner. split; [done|].
  specialize (Hinv starts). rewrite Hctx in Hinv.
  destruct Hinv as (_ & Hne & Hall). split; [done|].
  assert (Forall (fun kv : string * Z => 1 <= kv.2) inner) as Hpos.
  { eapply Forall_impl; [exact Hall|]. by intros kv [? _]. }
  apply Forall_forall. intros [w c] Hin. simpl.
  rewrite Forall_forall in Hall. destruct (Hall _ Hin) as [_ Htarget].
  simpl in Htarget.
  assert (w <> END_TOKEN) as Hnend.
  { intros ->.
    destruct (stored_pair_window m m' text starts END_TOKEN Hn Hfit)
      as (sentence & pre & suf & Hsin & Hpad & Hw & Htake).
    { unfold stored_count. rewrite Hctx. by eapply dict_get_positive. }
    rewrite Hsent in Hsin.
    assert (good_sentence sentence) as [Hsne Hstok].
    { apply elem_of_cons in Hsin as [->|Hsin]; [by split|].
      rewrite Forall_forall in Hrest. by apply Hrest. }
    rewrite <- (take_drop_middle _ _ _ Hw), Htake in Hpad.
    unfold padded_sentence in Hpad.
    destruct (fit_spec m text Hn) as (m2 & Hfit2 & _ & Hn2 & _).
    rewrite Hfit in Hfit2. injection Hfit2 as <-. rewrite Hn2 in Hpad.
    unfold starts, times in Hpad.
    eapply (no_end_after_start (Z.to_nat (n m - 1))); [lia| | |exact Hpad].
    - rewrite normalize_sentence_map. by destruct sentence.
    - by apply normalized_not_marker. }
  split; [done|].
  destruct Htarget as [->|[->|[? _]]]; done.
Qed.

Lemma start_context_trained (m m' : t) (text : string) :
  2 <= n m ->
  fit m text = Ok m' ->
  _trained m' = true ->
  exists inner,
    counts m' !! times START_TOKEN (n m - 1) = Some inner
    /\ inner <> []
    /\ Forall (fun kv => kv.1 <> END_TOKEN /\ kv.1 <> EmptyString) inner.
Proof.
  intros Hn Hfit Htr. apply (start_context_present m m' text Hn Hfit).
  intros Hnil.
  destruct (fit_spec m text Hn) as (m1 & Hfit1 & _ & _ & _ & Hreset & _).
  rewrite Hfit in Hfit1. injection Hfit1 as <-.
  by rewrite (Hreset Hnil) in Htr.
Qed.

(** X4: a training call sets the trained flag exactly when the text has
    a sentence with a token; an untrained result has empty tables; a
    trained result has the context of n-1 start-markers as a key, with at
    least one successor, none of which is the end-marker or empty. *)
Theorem fit_start_context (m m' : t) (text : string) :
  2 <= n m ->
  fit m text = Ok m' ->
  (_trained m' = true <-> _prepare_sentences (Py.strip text) <> [])
  /\ (_trained m' = false -> counts m' = ∅ /\ context_totals m' = ∅)
  /\ (_trained m' = true ->
      exists inner,
        counts m' !! times START_TOKEN (n m - 1) = Some inner
        /\ inner <> []
        /\ Forall (fun kv => kv.1 <> END_TOKEN /\ kv.1 <> EmptyString) inner).
Proof.
  intros Hn Hfit.
  destruct (fit_spec m text Hn) as (m1 & Hfit1 & _ & _ & _ & Hnil & Hcons).
  rewrite Hfit in Hfit1. injection Hfit1 as <-.
  destruct (_prepare_sentences (Py.strip text)) as [|s0 rest] eqn:Hsent.
  - rewrite Hnil by done. simpl. split; [split; done|]. split; done.
  - destruct Hcons as [_ Htr]; [done|].
    split; [by rewrite Htr|]. split; [by rewrite Htr|]. intros _.
    apply (start_context_present m m' text Hn Hfit). by rewrite Hsent.
Qed.

Lemma fit_start_context_witness :
  exists inner,
    counts (fitted trigram_model cat_corpus)
      !! times START_TOKEN (n trigram_model - 1) = Some inner
    /\ inner <> []
    /\ Forall (fun kv => kv.1 <> END_TOKEN /\ kv.1 <> EmptyString) inner.
Proof.
  apply (proj2 (proj2 (fit_start_context trigram_model
                         (fitted trigram_model cat_corpus) cat_corpus
                         ltac:(simpl; lia) ltac:(vm_compute; reflexivity)))).
  vm_compute; reflexivity.
Defined.

(** ** What sampling and generation return *)

Section Choice.


Lemma walk_in_range thr (items : list (string * Z)) :
  items <> [] ->
  Qle thr (inject_Z (sum_values items)) ->
  exists w cnt, walk thr (inject_Z 0) items = Some w /\ (w, cnt) ∈ items.
Proof.
  intros Hne Hle.
  destruct (walk thr (inject_Z 0) items) as [w|] eqn:Hw.
  - destruct (walk_elem _ _ _ _ Hw) as [cnt Hin]. eauto.
  - exfalso. rewrite walk_None in Hw.
    specialize (Hw (length items)).
    rewrite firstn_all, Qplus_0_l in Hw.
    apply Qlt_not_le in Hw; [done|].
    destruct items; [done|]. simpl. lia.
Qed.

End Choice.

Section Generation.
Context {R : Type} `{RandomSource R}.

Lemma trained_sample_spec (m m' : t) (text : string) (context : list string)
  (r : R) :
  2 <= n m ->
  fit m text = Ok m' ->
  _trained m' = true ->
  (forall total, 0 <= total -> Qle (uniform r 0 total).1 (inject_Z total)) ->
  exists inner cnt,
    counts m' !! (if bool_decide (counts m' !! context = None)
                  then times START_TOKEN (n m - 1) else context) = Some inner
    /\ ((_sample_next_word m' context r).1.1, cnt) ∈ inner
    /\ 1 <= cnt
    /\ (_sample_next_word m' context r).1.2 = m'.
Proof.
  intros Hn Hfit Htr Hdraw.
  destruct (fit_spec m text Hn) as (m1 & Hfit1 & Hinv & Hn1 & _).
  rewrite Hfit in Hfit1. injection Hfit1 as <-.
  pose proof (start_context_trained m m' text Hn Hfit) as Hstart.
  destruct (Hstart Htr) as (inner0 & Hin0 & _).
  rewrite sample_next_word_unfold. rewrite Hn1. cbv zeta.
  set (used := if bool_decide (counts m' !! context = None)
               then times START_TOKEN (n m - 1) else context).
  assert (exists inner, counts m' !! used = Some inner) as [inner Hused].
  { subst used. destruct (counts m' !! context) as [inner|] eqn:Hctx.
    - rewrite bool_decide_eq_false_2 by done. eauto.
    - rewrite bool_decide_eq_true_2 by done. eauto. }
  rewrite Hused. exists inner.
  pose proof (Hinv used) as Hu. rewrite Hused in Hu.
  destruct Hu as (Htot & Hne & Hall).
  assert (Forall (fun kv : string * Z => 1 <= kv.2) inner) as Hpos.
  { eapply Forall_impl; [exact Hall|]. by intros kv [? _]. }
  pose proof (sum_values_positive inner Hne Hpos) as Hsum.
  unfold context_total. rewrite Htot.
  destruct (Z.eqb_spec (sum_values inner) 0) as [Hz|_]; [lia|].
  assert (0 <= sum_values inner) as Hnn by lia.
  destruct (walk_in_range (uniform r 0 (sum_values inner)).1 inner Hne
              (Hdraw _ Hnn)) as (w & cnt & Hw & Hin).
  rewrite Hw. simpl. exists cnt. split; [done|]. split; [done|].
  split; [|done].
  rewrite Forall_forall in Hpos. by apply (Hpos (w, cnt)).
Qed.

Lemma generate_loop_extends k (m : t) (context generated : list string) (r : R) :
  exists rest,
    (generate_loop k m context generated r).1.1 = generated ++ rest
    /\ (length rest <= k)%nat.
Proof.
  revert m context generated r.
  induction k as [|k IH]; intros m context generated r; simpl.
  - exists []. by rewrite app_nil_r.
  - destruct (_sample_next_word m context r) as [[w m1] r1].
    case_decide.
    + exists []. rewrite app_nil_r. split; [done|simpl; lia].
    + destruct (IH m1 (drop 1 context ++ [w]) (generated ++ [w]) r1)
        as (rest & -> & Hlen).
      exists (w :: rest). rewrite <- app_assoc. split; [done|simpl; lia].
Qed.

Lemma join_nonempty (w : string) (rest : list string) :
  w <> EmptyString -> Py.join " " (w :: rest) <> EmptyString.
Proof.
  intros Hw. destruct rest as [|x rest]; [done|].
  destruct w as [|c w]; [done|]. discriminate.
Qed.

End Generation.

Lemma lcg_in_range (s total : Z) :
  0 <= total -> Qle (@uniform Z lcg_source s 0 total).1 (inject_Z total).
Proof.
  intros Htot. simpl. rewrite Z.sub_0_r.
  pose proof (Z.mod_pos_bound (1103515245 * s + 12345) 2147483648 ltac:(lia))
    as Hb.
  unfold lcg_next. set (x := (1103515245 * s + 12345) mod 2147483648) in *.
  unfold Qle, Qplus, Qmult, inject_Z. simpl. nia.
Qed.





(** X7: generate returns the empty string when max_length is zero or
    negative, and otherwise the returned string is empty or has at most
    max_length space-separated tokens. *)
Theorem generate_length_bound {R : Type} `{RandomSource R}
  (m m' : t) (text : string) (max_length : Z) (r : R) :
  2 <= n m ->
  fit m text = Ok m' ->
  (max_length <= 0 -> (generate m' max_length r).1.1 = EmptyString)
  /\ ((generate m' max_length r).1.1 = EmptyString
      \/ Z.of_nat (length (Py.split_space (generate m' max_length r).1.1))
         <= max_length).
Proof.
  intros Hn Hfit.
  destruct (fit_spec m text Hn) as (m1 & Hfit1 & Hinv & _).
  rewrite Hfit in Hfit1. injection Hfit1 as <-.
  unfold generate.
  destruct (negb (_trained m') || bool_decide (counts m' = ∅)).
  { simpl. split; [done|by left]. }
  pose proof (generate_loop_visible (Z.to_nat max_length) m'
                (times START_TOKEN (n m' - 1)) [] r Hinv
                (Forall_nil_2 _)) as Hvis.
  destruct (generate_loop_extends (Z.to_nat max_length) m'
              (times START_TOKEN (n m' - 1)) [] r) as (rest & Hrest & Hlen).
  destruct (generate_loop _ _ _ _ _) as [[generated m2] r2].
  simpl in *. subst generated. split.
  - intros Hmax. replace (Z.to_nat max_length) with 0%nat in Hlen by lia.
    by destruct rest; [|simpl in Hlen; lia].
  - destruct rest as [|w0 rest']; [by left|]. right.
    rewrite split_space_join; [cbn [length] in *; lia|done|].
    eapply Forall_impl; [exact Hvis|].
    intros x Hx. by destruct (visible_not_marker _ Hx) as (_ & _ & ?).
Qed.

Lemma generate_length_bound_witness :
  (@generate Z lcg_source (fitted trigram_model cat_corpus) 0 1).1.1
  = EmptyString
  /\ ((@generate Z lcg_source (fitted trigram_model cat_corpus) 2 1).1.1
      = EmptyString
      \/ Z.of_nat
           (length (Py.split_space
                      (@generate Z lcg_source
                         (fitted trigram_model cat_corpus) 2 1).1.1))
         <= 2).
Proof.
  split.
  - apply (proj1 (@generate_length_bound Z lcg_source trigram_model
                    (fitted trigram_model cat_corpus) cat_corpus 0 1
                    ltac:(simpl; lia) ltac:(vm_compute; reflexivity))).
    lia.
  - apply (proj2 (@generate_length_bound Z lcg_source trigram_model
                    (fitted trigram_model cat_corpus) cat_corpus 2 1
                    ltac:(simpl; lia) ltac:(vm_compute; reflexivity))).
Defined.

(** X8: on a trained model, with max_length at least 1 and a random
    source that draws at most the total it is given, generate returns a
    non-empty string. *)
Theorem generate_trained_nonempty {R : Type} `{RandomSource R}
  (m m' : t) (text : string) (max_length : Z) (r : R) :
  2 <= n m ->
  fit m text = Ok m' ->
  _trained m' = true ->
  1 <= max_length ->
  (forall total, 0 <= total -> Qle (uniform r 0 total).1 (inject_Z total)) ->
  (generate m' max_length r).1.1 <> EmptyString.
Proof.
  intros Hn Hfit Htr Hmax Hdraw.
  destruct (fit_spec m text Hn) as (m1 & Hfit1 & _ & Hn1 & _).
  rewrite Hfit in Hfit1. injection Hfit1 as <-.
  pose proof (start_context_trained m m' text Hn Hfit) as Hstart.
  destruct (Hstart Htr) as (inner0 & Hin0 & _ & Hsucc).
  destruct (trained_sample_spec m m' text (times START_TOKEN (n m - 1)) r
              Hn Hfit Htr Hdraw) as (inner & cnt & Hused & Hw & _ & Hsame).
  rewrite bool_decide_eq_false_2 in Hused by (by rewrite Hin0).
  rewrite Hin0 in Hused. injection Hused as <-.
  rewrite Forall_forall in Hsucc. destruct (Hsucc _ Hw) as [Hnend Hnempty].
  simpl in Hnend, Hnempty.
  unfold generate. rewrite Htr. simpl.
  rewrite bool_decide_eq_false_2
    by (intros Hc; by rewrite Hc, lookup_empty in Hin0).
  rewrite Hn1.
  destruct (Z.to_nat max_length) as [|k] eqn:Hk; [lia|].
  cbn [generate_loop].
  destruct (_sample_next_word m' (times START_TOKEN (n m - 1)) r)
    as [[w m2] r2]. simpl in *. subst m2.
  rewrite decide_False by done.
  destruct (generate_loop_extends k m'
              (drop 1 (times START_TOKEN (n m - 1)) ++ [w]) [w] r2)
    as (rest & Hrest & _).
  destruct (generate_loop _ _ _ _ _) as [[generated m3] r3].
  simpl in *. subst generated. by apply join_nonempty.
Qed.

Lemma generate_trained_nonempty_witness :
  (@generate Z lcg_source (fitted trigram_model cat_corpus) 5 1).1.1
  <> EmptyString.
Proof.
  apply (@generate_trained_nonempty Z lcg_source trigram_model
           (fitted trigram_model cat_corpus) cat_corpus 5 1).
  - simpl; lia.
  - vm_compute; reflexivity.
  - vm_compute; reflexivity.
  - lia.
  - apply lcg_in_range.
Defined.

(** ** What the tokenizer keeps *)

Section Characters.

Ltac by_cases c := destruct c as [[] [] [] [] [] [] [] []]; try reflexivity.

Lemma space_not_word c : Py.isspace c = true -> Py.isword c = false.
Proof. by_cases c; discriminate. Qed.

Lemma space_not_delim c : Py.isspace c = true -> Py.is_delim c = false.
Proof. by_cases c; discriminate. Qed.

Lemma lower_char_space c : Py.isspace (Py.lower_char c) = Py.isspace c.
Proof. by_cases c. Qed.

Lemma lower_char_word c : Py.isword (Py.lower_char c) = Py.isword c.
Proof. by_cases c. Qed.

Lemma lower_char_idem c : Py.lower_char (Py.lower_char c) = Py.lower_char c.
Proof. by_cases c. Qed.

End Characters.

Section Tokenization.

Lemma word_runs_cons c s :
  Py.word_runs (String c s) = step_char c (Py.word_runs s).
Proof.
  cbn [Py.word_runs]. unfold step_char, finish.
  by destruct (Py.word_runs s) as [w ws].
Qed.

Lemma findall_finish s : Py.re_findall_words s = finish (Py.word_runs s).
Proof.
  unfold Py.re_findall_words, finish. by destruct (Py.word_runs s) as [w ws].
Qed.

Lemma re_split_aux_nonempty b s : Py.re_split_aux b s <> [].
Proof.
  revert b. induction s as [|c s IH]; intros b; cbn [Py.re_split_aux]; [done|].
  destruct (Py.is_delim c).
  - destruct b; [apply IH|done].
  - by destruct (Py.re_split_aux false s).
Qed.

Lemma runs_cons b c s :
  runs b (String c s)
  = if Py.is_delim c then
      if b then runs true s else (EmptyString, []) :: runs true s
    else match runs false s with
         | p :: ps => step_char c p :: ps
         | [] => []
         end.
Proof.
  unfold runs. cbn [Py.re_split_aux].
  destruct (Py.is_delim c).
  - by destruct b.
  - pose proof (re_split_aux_nonempty false s) as Hne.
    destruct (Py.re_split_aux false s) as [|p ps]; [done|].
    cbn [map]. by rewrite word_runs_cons.
Qed.

Lemma runs_congruence c s1 s2 :
  (forall b, runs b s1 = runs b s2) ->
  forall b, runs b (String c s1) = runs b (String c s2).
Proof. intros Heq b. by rewrite !runs_cons, !Heq. Qed.

Lemma runs_space_cons b c s :
  Py.isspace c = true ->
  runs b (String c s)
  = match runs false s with
    | p :: ps => (EmptyString, finish p) :: ps
    | [] => []
    end.
Proof.
  intros Hc. rewrite runs_cons, (space_not_delim _ Hc).
  unfold step_char. by rewrite (space_not_word _ Hc).
Qed.

Lemma finish_finish p : finish (EmptyString, finish p) = finish p.
Proof. done. Qed.

Lemma runs_two_spaces b c d s :
  Py.isspace c = true -> Py.isspace d = true ->
  runs b (String c (String d s)) = runs b (String c s).
Proof.
  intros Hc Hd. rewrite (runs_space_cons b c) by done.
  rewrite (runs_space_cons false d), (runs_space_cons b c) by done.
  by destruct (runs false s).
Qed.

Lemma runs_spaces_alike b c d s :
  Py.isspace c = true -> Py.isspace d = true ->
  runs b (String c s) = runs b (String d s).
Proof. intros Hc Hd. by rewrite !runs_space_cons. Qed.

(** Collapsing whitespace runs changes no word run. *)
Lemma runs_re_sub_spaces s :
  (forall b, runs b (Py.re_sub_spaces_aux false s) = runs b s)
  /\ (forall b c, Py.isspace c = true ->
                  runs b (String c (Py.re_sub_spaces_aux true s))
                  = runs b (String c s)).
Proof.
  induction s as [|d s [IH1 IH2]]; [done|].
  cbn [Py.re_sub_spaces_aux].
  destruct (Py.isspace d) eqn:Hd.
  - split.
    + intros b. rewrite IH2 by done. by apply runs_spaces_alike.
    + intros b c Hc. rewrite IH2 by done. by rewrite runs_two_spaces.
  - split.
    + by apply runs_congruence.
    + intros b c Hc. revert b. apply runs_congruence.
      by apply runs_congruence.
Qed.

Lemma runs_rstrip s : forall b, runs b (Py.rstrip s) = runs b s.
Proof.
  induction s as [|c s IH]; [done|]. intros b.
  cbn [Py.rstrip]. cbv zeta.
  destruct (Py.isspace c && Py.is_empty (Py.rstrip s)) eqn:Hc.
  - apply andb_prop in Hc as [Hc Hr].
    apply is_empty_true in Hr. rewrite Hr in IH.
    rewrite (runs_congruence c s EmptyString) by (intros b'; by rewrite IH).
    by rewrite runs_space_cons.
  - by apply runs_congruence.
Qed.

Lemma sentences_of_flag s : sentences_of true s = sentences_of false s.
Proof.
  unfold sentences_of. destruct s as [|c s]; [done|].
  rewrite !runs_cons. by destruct (Py.is_delim c).
Qed.

Lemma sentences_of_lstrip s : sentences_of false (Py.lstrip s) = sentences_of false s.
Proof.
  induction s as [|c s IH]; [done|].
  cbn [Py.lstrip]. destruct (Py.isspace c) eqn:Hc; [|done].
  rewrite IH. unfold sentences_of. rewrite (runs_space_cons false c) by done.
  pose proof (re_split_aux_nonempty false s) as Hne.
  unfold runs in *. destruct (Py.re_split_aux false s) as [|p ps]; [done|].
  cbn [map]. by rewrite finish_finish.
Qed.

Lemma prepare_fold (pieces : list string) (acc : list (list string)) :
  foldl (fun tokenized sentence =>
           match Py.re_findall_words sentence with
           | [] => tokenized
           | _ :: _ => tokenized ++ [Py.re_findall_words sentence]
           end) acc pieces
  = acc ++ filter (fun l => l <> []) (map finish (map Py.word_runs pieces)).
Proof.
  revert acc. induction pieces as [|p pieces IH]; intros acc; simpl.
  - by rewrite app_nil_r.
  - rewrite IH, <- findall_finish.
    destruct (Py.re_findall_words p) as [|w ws] eqn:Hp.
    + by rewrite filter_cons_False by (by intros ?).
    + rewrite filter_cons_True by done. by rewrite <- app_assoc.
Qed.

Lemma prepare_sentences_of text :
  _prepare_sentences text = sentences_of false (Py.lower text).
Proof. unfold _prepare_sentences. cbv zeta. by rewrite prepare_fold. Qed.

Lemma lower_lstrip s : Py.lower (Py.lstrip s) = Py.lstrip (Py.lower s).
Proof.
  induction s as [|c s IH]; [done|].
  cbn [Py.lstrip Py.lower]. rewrite lower_char_space.
  by destruct (Py.isspace c).
Qed.

Lemma lower_is_empty s : Py.is_empty (Py.lower s) = Py.is_empty s.
Proof. by destruct s. Qed.

Lemma lower_rstrip s : Py.lower (Py.rstrip s) = Py.rstrip (Py.lower s).
Proof.
  induction s as [|c s IH]; [done|].
  cbn [Py.rstrip Py.lower]. cbv zeta.
  rewrite lower_char_space, <- IH, lower_is_empty.
  by destruct (Py.isspace c && Py.is_empty (Py.rstrip s)).
Qed.

Lemma lower_strip s : Py.lower (Py.strip s) = Py.strip (Py.lower s).
Proof. unfold Py.strip. by rewrite lower_rstrip, lower_lstrip. Qed.

Lemma lower_re_sub_spaces b s :
  Py.lower (Py.re_sub_spaces_aux b s) = Py.re_sub_spaces_aux b (Py.lower s).
Proof.
  revert b. induction s as [|c s IH]; intros b; [done|].
  cbn [Py.re_sub_spaces_aux Py.lower]. rewrite lower_char_space.
  destruct (Py.isspace c); [destruct b|]; cbn [Py.lower]; by rewrite IH.
Qed.

Lemma lower_idem s : Py.lower (Py.lower s) = Py.lower s.
Proof.
  induction s as [|c s IH]; [done|].
  cbn [Py.lower]. by rewrite lower_char_idem, IH.
Qed.

Lemma sentences_of_strip s : sentences_of false (Py.strip s) = sentences_of false s.
Proof.
  unfold Py.strip. rewrite <- (sentences_of_lstrip s).
  unfold sentences_of. by rewrite runs_rstrip.
Qed.

Lemma prepare_strip text :
  _prepare_sentences (Py.strip text) = _prepare_sentences text.
Proof. by rewrite !prepare_sentences_of, lower_strip, sentences_of_strip. Qed.

Lemma prepare_lower text :
  _prepare_sentences (Py.lower text) = _prepare_sentences text.
Proof. by rewrite !prepare_sentences_of, lower_idem. Qed.

Lemma prepare_re_sub_spaces text :
  _prepare_sentences (Py.re_sub_spaces text) = _prepare_sentences text.
Proof.
  rewrite !prepare_sentences_of. unfold Py.re_sub_spaces, sentences_of.
  rewrite lower_re_sub_spaces.
  by rewrite (proj1 (runs_re_sub_spaces (Py.lower text))).
Qed.

Lemma prepare_normalize_whitespace text :
  _prepare_sentences (Utils.normalize_whitespace text) = _prepare_sentences text.
Proof.
  unfold Utils.normalize_whitespace.
  by rewrite prepare_strip, prepare_re_sub_spaces.
Qed.

(** [fit] reads the text through its sentences only. *)
Lemma fit_by_sentences m t1 t2 :
  _prepare_sentences t1 = _prepare_sentences t2 -> fit m t1 = fit m t2.
Proof.
  intros Heq.
  assert (forall text,
            _prepare_sentences (Py.strip text) = [] ->
            fit m text = Ok (_reset_model_state m)) as Hnil.
  { intros text Hs. unfold fit. rewrite Hs. by destruct (Py.is_empty _). }
  assert (forall text,
            Py.is_empty (Py.strip text) = true ->
            _prepare_sentences (Py.strip text) = []) as Hempty.
  { intros text He. by rewrite (is_empty_true _ He). }
  pose proof (prepare_strip t1) as H1. pose proof (prepare_strip t2) as H2.
  destruct (_prepare_sentences t1) as [|s0 rest] eqn:Hs1.
  - rewrite !Hnil; [done|congruence|congruence].
  - unfold fit.
    destruct (Py.is_empty (Py.strip t1)) eqn:He1;
      [apply Hempty in He1; congruence|].
    destruct (Py.is_empty (Py.strip t2)) eqn:He2;
      [apply Hempty in He2; congruence|].
    by rewrite H1, H2, <- Heq.
Qed.

End Tokenization.

Section TokenShape.

Lemma runs_all_chars (P : ascii -> bool) s :
  all_chars P s = true ->
  forall b,
    Forall (fun p : string * list string =>
              all_chars P p.1 = true
              /\ Forall (fun w => all_chars P w = true) p.2)
           (runs b s).
Proof.
  induction s as [|c s IH]; intros Hs b.
  - repeat constructor.
  - cbn [all_chars] in Hs. apply andb_prop in Hs as [Hc Hs].
    specialize (IH Hs). rewrite runs_cons.
    destruct (Py.is_delim c).
    + destruct b; [apply IH|]. constructor; [by split|apply IH].
    + pose proof (IH false) as Hf.
      destruct (runs false s) as [|[w ws] ps]; [constructor|].
      apply Forall_cons in Hf as [[Hw Hws] Hps]. simpl in Hw, Hws.
      constructor; [|done]. unfold step_char, finish. simpl.
      destruct (Py.isword c); simpl.
      * by rewrite Hc, Hw.
      * split; [done|]. destruct (Py.is_empty w); [done|by constructor].
Qed.

Lemma sentences_all_chars (P : ascii -> bool) s :
  all_chars P s = true ->
  Forall (Forall (fun w => all_chars P w = true)) (sentences_of false s).
Proof.
  intros Hs. unfold sentences_of.
  apply Forall_forall. intros l [_ Hl]%list_elem_of_filter.
  apply list_elem_of_fmap in Hl as ([w ws] & -> & Hp).
  pose proof (runs_all_chars P s Hs false) as Hall.
  rewrite Forall_forall in Hall. destruct (Hall _ Hp) as [Hw Hws].
  unfold finish. simpl in *. destruct (Py.is_empty w); [done|by constructor].
Qed.

Lemma lower_fixed s :
  all_chars (fun c => Ascii.eqb (Py.lower_char c) c) (Py.lower s) = true.
Proof.
  induction s as [|c s IH]; [done|].
  cbn [Py.lower all_chars]. rewrite lower_char_idem, Ascii.eqb_refl. done.
Qed.

Lemma fixed_lower w :
  all_chars (fun c => Ascii.eqb (Py.lower_char c) c) w = true -> Py.lower w = w.
Proof.
  induction w as [|c w IH]; [done|].
  cbn [all_chars Py.lower]. intros [Hc Hw]%andb_prop.
  apply Ascii.eqb_eq in Hc. by rewrite Hc, IH.
Qed.

Lemma lower_not_word s :
  all_chars (fun c => negb (Py.isword c)) s = true ->
  all_chars (fun c => negb (Py.isword c)) (Py.lower s) = true.
Proof.
  induction s as [|c s IH]; [done|].
  cbn [Py.lower all_chars]. intros [Hc Hs]%andb_prop.
  by rewrite lower_char_word, Hc, IH.
Qed.

Lemma sentences_of_word s :
  all_chars (fun c => negb (Py.isword c)) s = false ->
  forall b, sentences_of b s <> [].
Proof.
  induction s as [|c s IH]; [done|].
  cbn [all_chars]. intros Hs b. unfold sentences_of. rewrite runs_cons.
  pose proof (re_split_aux_nonempty false s) as Hne.
  destruct (Py.isword c) eqn:Hc.
  - assert (Py.is_delim c = false) as ->.
    { destruct (Py.is_delim c) eqn:Hd; [|done].
      revert Hc Hd. clear.
      destruct c as [[] [] [] [] [] [] [] []]; discriminate. }
    unfold runs in *. destruct (Py.re_split_aux false s) as [|p ps]; [done|].
    cbn [map]. unfold step_char. rewrite Hc. unfold finish. simpl.
    by rewrite filter_cons_True.
  - simpl in Hs. specialize (IH Hs).
    destruct (Py.is_delim c).
    + destruct b; [apply (IH true)|].
      cbn [map]. rewrite filter_cons_False by (by intros ?). apply (IH true).
    + pose proof (IH false) as Hf. unfold sentences_of in Hf.
      unfold runs in *. destruct (Py.re_split_aux false s) as [|p ps]; [done|].
      cbn [map] in *. unfold step_char. rewrite Hc.
      by rewrite finish_finish.
Qed.

Lemma prepare_wordless text :
  all_chars (fun c => negb (Py.isword c)) text = true ->
  _prepare_sentences text = [].
Proof.
  intros Hs.
  pose proof (prepare_sentences_tokens text) as Hgood.
  pose proof (sentences_all_chars _ _ (lower_not_word _ Hs)) as Hnot.
  rewrite <- prepare_sentences_of in Hnot.
  destruct (_prepare_sentences text) as [|sentence rest]; [done|].
  exfalso.
  apply Forall_cons in Hgood as [[Hne Htok] _].
  apply Forall_cons in Hnot as [Hnw _].
  destruct sentence as [|w ws]; [done|].
  apply Forall_cons in Htok as [[Hw1 Hw2] _].
  apply Forall_cons in Hnw as [Hw3 _].
  destruct w as [|c w]; [done|]. simpl in Hw2, Hw3.
  apply andb_prop in Hw2 as [Hc _]. apply andb_prop in Hw3 as [Hc' _].
  by rewrite Hc in Hc'.
Qed.

Lemma prepare_wordy text :
  all_chars (fun c => negb (Py.isword c)) text = false ->
  _prepare_sentences text <> [].
Proof.
  intros Hs. rewrite prepare_sentences_of. apply sentences_of_word.
  destruct (all_chars (fun c => negb (Py.isword c)) (Py.lower text)) eqn:Hl;
    [|done].
  exfalso. clear -Hs Hl.
  induction text as [|c s IH]; [done|].
  cbn [Py.lower all_chars] in *. rewrite lower_char_word in Hl.
  apply andb_prop in Hl as [Hc Hl]. rewrite Hc in Hs. by apply IH.
Qed.

End TokenShape.

(** X9: every sentence that _prepare_sentences returns is non-empty, and
    each of its tokens is a non-empty run of word characters left
    unchanged by lower-casing. *)
Theorem prepare_sentences_shape (text : string) :
  Forall (fun sentence =>
            sentence <> []
            /\ Forall (fun tok =>
                         tok <> EmptyString
                         /\ all_chars Py.isword tok = true
                         /\ Py.lower tok = tok) sentence)
         (_prepare_sentences text).
Proof.
  pose proof (prepare_sentences_tokens text) as Hgood.
  pose proof (sentences_all_chars _ _ (lower_fixed text)) as Hlow.
  rewrite <- prepare_sentences_of in Hlow.
  rewrite Forall_forall in Hgood. rewrite Forall_forall in Hlow.
  apply Forall_forall. intros sentence Hin.
  destruct (Hgood _ Hin) as [Hne Htok]. split; [done|].
  specialize (Hlow _ Hin).
  rewrite Forall_forall in Htok. rewrite Forall_forall in Hlow.
  apply Forall_forall. intros tok Htin.
  destruct (Htok _ Htin) as [? ?]. split; [done|]. split; [done|].
  by apply fixed_lower, Hlow.
Qed.

(** X10: a training call leaves the model trained exactly when the text
    contains a word character; on a text without one the result is the
    reset state. *)
Theorem fit_trained_iff_word (m m' : t) (text : string) :
  2 <= n m ->
  fit m text = Ok m' ->
  (_trained m' = true
   <-> all_chars (fun c => negb (Py.isword c)) text = false)
  /\ (all_chars (fun c => negb (Py.isword c)) text = true ->
      m' = _reset_model_state m).
Proof.
  intros Hn Hfit.
  destruct (fit_spec m text Hn) as (m1 & Hfit1 & _ & _ & _ & Hnil & Hcons).
  rewrite Hfit in Hfit1. injection Hfit1 as <-.
  rewrite prepare_strip in Hnil, Hcons.
  destruct (all_chars (fun c => negb (Py.isword c)) text) eqn:Hw.
  - rewrite Hnil by (by apply prepare_wordless). by split.
  - destruct Hcons as [_ ->]; [by apply prepare_wordy|]. by split.
Qed.

Lemma fit_trained_iff_word_witness :
  (_trained (fitted trigram_model "?!  ... --") = true
   <-> all_chars (fun c => negb (Py.isword c)) "?!  ... --" = false)
  /\ (all_chars (fun c => negb (Py.isword c)) "?!  ... --" = true ->
      fitted trigram_model "?!  ... --" = _reset_model_state trigram_model).
Proof.
  apply (fit_trained_iff_word trigram_model (fitted trigram_model "?!  ... --")
           "?!  ... --").
  - simpl; lia.
  - vm_compute; reflexivity.
Defined.

(** X11: training on the text cleaned by normalize_whitespace, on the
    stripped text or on the lower-cased text gives the same result as
    training on the text itself. *)
Theorem fit_ignores_layout_and_case (m : t) (text : string) :
  fit m (Utils.normalize_whitespace text) = fit m text
  /\ fit m (Py.strip text) = fit m text
  /\ fit m (Py.lower text) = fit m text.
Proof.
  repeat split; apply fit_by_sentences.
  - apply prepare_normalize_whitespace.
  - apply prepare_strip.
  - apply prepare_lower.
Qed.

(** ** Cleaning the corpus *)

Section Trimming.

Lemma length_lstrip s : (String.length (Py.lstrip s) <= String.length s)%nat.
Proof.
  induction s as [|c s IH]; [done|].
  cbn [Py.lstrip]. destruct (Py.isspace c); simpl in *; lia.
Qed.

Lemma lstrip_head c s :
  Py.lstrip (String c s) = String c s -> Py.isspace c = false.
Proof.
  cbn [Py.lstrip]. destruct (Py.isspace c); [|done].
  intros Heq. pose proof (length_lstrip s) as Hlen.
  rewrite Heq in Hlen. simpl in Hlen. lia.
Qed.

Lemma lstrip_idem s : Py.lstrip (Py.lstrip s) = Py.lstrip s.
Proof.
  induction s as [|c s IH]; [done|].
  cbn [Py.lstrip]. destruct (Py.isspace c) eqn:Hc; [done|].
  cbn [Py.lstrip]. by rewrite Hc.
Qed.

Lemma rstrip_idem s : Py.rstrip (Py.rstrip s) = Py.rstrip s.
Proof.
  induction s as [|c s IH]; [done|].
  cbn [Py.rstrip]. cbv zeta.
  destruct (Py.isspace c && Py.is_empty (Py.rstrip s)) eqn:Hc; [done|].
  cbn [Py.rstrip]. cbv zeta. by rewrite IH, Hc.
Qed.

Lemma lstrip_rstrip s :
  Py.lstrip s = s -> Py.lstrip (Py.rstrip s) = Py.rstrip s.
Proof.
  destruct s as [|c s]; [done|].
  intros Hc%lstrip_head. cbn [Py.rstrip]. cbv zeta. rewrite Hc. simpl.
  by rewrite Hc.
Qed.

Lemma strip_idem s : Py.strip (Py.strip s) = Py.strip s.
Proof.
  unfold Py.strip.
  rewrite (lstrip_rstrip (Py.lstrip s)) by apply lstrip_idem.
  apply rstrip_idem.
Qed.

Lemma lstrip_all_chars (P : ascii -> bool) s :
  all_chars P s = true -> all_chars P (Py.lstrip s) = true.
Proof.
  induction s as [|c s IH]; [done|].
  cbn [Py.lstrip]. destruct (Py.isspace c); [|done].
  cbn [all_chars]. intros [_ Hs]%andb_prop. by apply IH.
Qed.

Lemma rstrip_all_chars (P : ascii -> bool) s :
  all_chars P s = true -> all_chars P (Py.rstrip s) = true.
Proof.
  induction s as [|c s IH]; [done|].
  cbn [Py.rstrip all_chars]. cbv zeta. intros [Hc Hs]%andb_prop.
  destruct (Py.isspace c && Py.is_empty (Py.rstrip s)); [done|].
  cbn [all_chars]. by rewrite Hc, IH.
Qed.

Lemma lstrip_no_adjacent b s :
  no_adjacent_spaces b s = true -> no_adjacent_spaces false (Py.lstrip s) = true.
Proof.
  revert b. induction s as [|c s IH]; intros b; [done|].
  cbn [Py.lstrip no_adjacent_spaces].
  destruct (Py.isspace c) eqn:Hc.
  - intros [_ Hs]%andb_prop. by eapply IH.
  - intros Hs. cbn [no_adjacent_spaces]. by rewrite Hc.
Qed.

Lemma rstrip_no_adjacent b s :
  no_adjacent_spaces b s = true -> no_adjacent_spaces b (Py.rstrip s) = true.
Proof.
  revert b. induction s as [|c s IH]; intros b; [done|].
  cbn [Py.rstrip no_adjacent_spaces]. cbv zeta.
  destruct (Py.isspace c && Py.is_empty (Py.rstrip s)) eqn:Hr; [done|].
  cbn [no_adjacent_spaces].
  destruct (Py.isspace c).
  - intros [Hb Hs]%andb_prop. by rewrite Hb, IH.
  - apply IH.
Qed.

Lemma re_sub_spaces_plain b s :
  all_chars plain_space_only (Py.re_sub_spaces_aux b s) = true.
Proof.
  revert b. induction s as [|c s IH]; intros b; [done|].
  cbn [Py.re_sub_spaces_aux].
  destruct (Py.isspace c) eqn:Hc.
  - destruct b; [apply IH|]. cbn [all_chars]. by rewrite IH.
  - cbn [all_chars]. unfold plain_space_only at 1. by rewrite Hc, IH.
Qed.

Lemma re_sub_spaces_no_adjacent b s :
  no_adjacent_spaces b (Py.re_sub_spaces_aux b s) = true.
Proof.
  revert b. induction s as [|c s IH]; intros b; [done|].
  cbn [Py.re_sub_spaces_aux].
  destruct (Py.isspace c) eqn:Hc.
  - destruct b; [apply IH|]. cbn [no_adjacent_spaces]. simpl. apply IH.
  - cbn [no_adjacent_spaces]. rewrite Hc. apply IH.
Qed.

Lemma re_sub_spaces_fixed b s :
  no_adjacent_spaces b s = true ->
  all_chars plain_space_only s = true ->
  Py.re_sub_spaces_aux b s = s.
Proof.
  revert b. induction s as [|c s IH]; intros b; [done|].
  cbn [Py.re_sub_spaces_aux no_adjacent_spaces all_chars].
  unfold plain_space_only at 1.
  destruct (Py.isspace c) eqn:Hc; simpl.
  - intros [Hb Hs]%andb_prop [Hsp Hp]%andb_prop.
    apply negb_true_iff in Hb. subst b.
    apply Ascii.eqb_eq in Hsp. subst c. by rewrite IH.
  - intros Hs Hp. by rewrite IH.
Qed.

Lemma non_space_re_sub_spaces b s :
  non_space_chars (Py.re_sub_spaces_aux b s) = non_space_chars s.
Proof.
  revert b. induction s as [|c s IH]; intros b; [done|].
  cbn [Py.re_sub_spaces_aux non_space_chars].
  destruct (Py.isspace c) eqn:Hc.
  - destruct b; [apply IH|]. cbn [non_space_chars]. simpl. apply IH.
  - cbn [non_space_chars]. by rewrite Hc, IH.
Qed.

Lemma non_space_lstrip s : non_space_chars (Py.lstrip s) = non_space_chars s.
Proof.
  induction s as [|c s IH]; [done|].
  cbn [Py.lstrip non_space_chars]. destruct (Py.isspace c) eqn:Hc; [done|].
  cbn [non_space_chars]. by rewrite Hc.
Qed.

Lemma non_space_rstrip s : non_space_chars (Py.rstrip s) = non_space_chars s.
Proof.
  induction s as [|c s IH]; [done|].
  cbn [Py.rstrip non_space_chars]. cbv zeta.
  destruct (Py.isspace c && Py.is_empty (Py.rstrip s)) eqn:Hr.
  - apply andb_prop in Hr as [Hc Hr]. apply is_empty_true in Hr.
    rewrite Hc, <- IH, Hr. done.
  - cbn [non_space_chars]. by rewrite IH.
Qed.

End Trimming.

Lemma normalize_whitespace_shape (text : string) :
  let out := Utils.normalize_whitespace text in
  Py.strip out = out
  /\ all_chars plain_space_only out = true
  /\ no_adjacent_spaces false out = true.
Proof.
  intros out. subst out. unfold Utils.normalize_whitespace, Py.re_sub_spaces.
  split; [apply strip_idem|]. unfold Py.strip. split.
  - apply rstrip_all_chars, lstrip_all_chars, re_sub_spaces_plain.
  - apply rstrip_no_adjacent, (lstrip_no_adjacent false).
    apply re_sub_spaces_no_adjacent.
Qed.

Section Infix.

Lemma append_assoc (a b c : string) : (a +:+ b) +:+ c = a +:+ b +:+ c.
Proof.
  induction a as [|x a IH]; [by rewrite !append_nil|].
  by rewrite !append_cons, IH.
Qed.


Lemma lstrip_suffix s : exists pre, s = pre +:+ Py.lstrip s.
Proof.
  induction s as [|c s [pre IH]]; [by exists EmptyString|].
  cbn [Py.lstrip]. destruct (Py.isspace c).
  - exists (String c pre). by rewrite append_cons, <- IH.
  - by exists EmptyString.
Qed.

Lemma rstrip_prefix s : exists post, s = Py.rstrip s +:+ post.
Proof.
  induction s as [|c s [post IH]]; [by exists EmptyString|].
  cbn [Py.rstrip]. cbv zeta.
  destruct (Py.isspace c && Py.is_empty (Py.rstrip s)).
  - by exists (String c s).
  - exists post. by rewrite append_cons, <- IH.
Qed.

Lemma substring_infix (n k : nat) (s : string) :
  exists pre post,
    s = pre +:+ String.substring n k s +:+ post
    /\ (String.length pre <= n)%nat
    /\ (String.length (String.substring n k s) <= k)%nat.
Proof.
  revert n k. induction s as [|c s IH]; intros n k.
  - exists EmptyString, EmptyString.
    destruct n, k; (split; [reflexivity|simpl; lia]).
  - destruct n as [|n].
    + destruct k as [|k].
      * exists EmptyString, (String c s). by repeat split.
      * destruct (IH 0%nat k) as (pre & post & Heq & Hpre & Hlen).
        cbn [String.substring].
        assert (pre = EmptyString) as ->
          by (destruct pre; [done|simpl in Hpre; lia]).
        exists EmptyString, post. rewrite append_nil in *.
        rewrite append_cons, <- Heq. split; [done|]. simpl in *. lia.
    + destruct (IH n k) as (pre & post & Heq & Hpre & Hlen).
      cbn [String.substring].
      exists (String c pre), post. rewrite append_cons, <- Heq.
      split; [done|]. simpl. lia.
Qed.

Lemma strip_infix s : exists pre post, s = pre +:+ Py.strip s +:+ post.
Proof.
  unfold Py.strip.
  destruct (lstrip_suffix s) as [pre Hpre].
  destruct (rstrip_prefix (Py.lstrip s)) as [post Hpost].
  exists pre, post. by rewrite <- Hpost.
Qed.

End Infix.

(** X12: the result of normalize_whitespace has no leading or trailing
    whitespace, no whitespace other than the plain space, no two adjacent
    spaces; normalizing it again changes nothing; and its non-whitespace
    characters are those of the input, in order. *)
Theorem normalize_whitespace_normal_form (text : string) :
  let out := Utils.normalize_whitespace text in
  Py.strip out = out
  /\ all_chars plain_space_only out = true
  /\ no_adjacent_spaces false out = true
  /\ Utils.normalize_whitespace out = out
  /\ non_space_chars out = non_space_chars text.
Proof.
  intros out.
  destruct (normalize_whitespace_shape text) as (Htrim & Hplain & Hadj).
  fold out in Htrim, Hplain, Hadj.
  do 3 (split; [done|]). split.
  - unfold Utils.normalize_whitespace at 1. unfold Py.re_sub_spaces.
    by rewrite re_sub_spaces_fixed.
  - subst out. unfold Utils.normalize_whitespace, Py.re_sub_spaces, Py.strip.
    by rewrite non_space_rstrip, non_space_lstrip, non_space_re_sub_spaces.
Qed.

(** X13: the result of strip_gutenberg_header_footer has no leading or
    trailing whitespace and is a contiguous part of the input; it is empty
    for the empty input. *)
Theorem strip_gutenberg_output (raw_text : string) :
  let out := Utils.strip_gutenberg_header_footer raw_text in
  Py.strip out = out
  /\ (exists pre post, raw_text = pre +:+ out +:+ post)
  /\ (raw_text = EmptyString -> out = EmptyString).
Proof.
  intros out. subst out. unfold Utils.strip_gutenberg_header_footer.
  destruct raw_text as [|c raw]; [by repeat split; exists EmptyString, EmptyString|].
  cbv zeta. change (Py.is_empty (String c raw)) with false. cbv iota.
  split; [apply strip_idem|]. split; [|done].
  unfold Py.slice.
  match goal with
  | |- context [String.substring ?n ?k ?s] =>
      destruct (substring_infix n k s) as (p1 & q1 & Hsub & _ & _);
      destruct (strip_infix (String.substring n k s)) as (p2 & q2 & Hstrip);
      set (sub := String.substring n k s) in *
  end.
  exists (p1 +:+ p2), (q2 +:+ q1).
  rewrite Hsub at 1. rewrite Hstrip at 1.
  by rewrite !append_assoc.
Qed.

Section Find.








End Find.


(** X15: process_text returns a text with the same sentences and tokens
    as the text that strip_gutenberg_header_footer returns, so training on
    either gives the same result; its output has no leading or trailing
    whitespace, only plain spaces and no two adjacent spaces. *)
Theorem process_text_training (m : t) (raw_text : string) :
  let out := DataPipeline.process_text raw_text in
  _prepare_sentences out
  = _prepare_sentences (Utils.strip_gutenberg_header_footer raw_text)
  /\ fit m out = fit m (Utils.strip_gutenberg_header_footer raw_text)
  /\ Py.strip out = out
  /\ all_chars plain_space_only out = true
  /\ no_adjacent_spaces false out = true.
Proof.
  intros out. subst out. unfold DataPipeline.process_text. cbv zeta.
  destruct (normalize_whitespace_shape
              (Utils.strip_gutenberg_header_footer raw_text))
    as (Hs & Hp & Ha).
  split; [apply prepare_normalize_whitespace|].
  split; [apply fit_by_sentences, prepare_normalize_whitespace|].
  by repeat split.
Qed.

(** X16: for a raw text in which find locates neither marker,
    process_text keeps the sentences and tokens of the raw text, and
    training on the processed text equals training on the raw text. *)
Theorem process_text_without_markers (m : t) (raw_text : string) :
  Py.find (Py.lower raw_text) (Py.lower Utils.START_FLAG) 0 = -1 ->
  Py.find (Py.lower raw_text) (Py.lower Utils.END_FLAG) 0 = -1 ->
  _prepare_sentences (DataPipeline.process_text raw_text)
  = _prepare_sentences raw_text
  /\ fit m (DataPipeline.process_text raw_text) = fit m raw_text.
Proof.
  intros Hstart Hend.
  assert (_prepare_sentences (DataPipeline.process_text raw_text)
          = _prepare_sentences raw_text) as Heq.
  { unfold DataPipeline.process_text. cbv zeta.
    rewrite prepare_normalize_whitespace.
    rewrite (strip_gutenberg_no_markers _ Hstart Hend).
    apply prepare_strip. }
  split; [done|]. by apply fit_by_sentences.
Qed.

Lemma process_text_without_markers_witness :
  _prepare_sentences (DataPipeline.process_text "  The cat   sat.  ")
  = _prepare_sentences "  The cat   sat.  "
  /\ fit trigram_model (DataPipeline.process_text "  The cat   sat.  ")
     = fit trigram_model "  The cat   sat.  ".
Proof.
  apply (process_text_without_markers trigram_model "  The cat   sat.  ");
    reflexivity.
Defined.

(** ** The command-line entry point *)

Section MainFacts.
Context {R : Type} `{RandomSource R}.

Lemma generate_marker_free (m : t) (max_length : Z) (r : R) :
  tables_inv is_target m -> marker_free (generate m max_length r).1.1.
Proof.
  intros Hinv w. unfold generate.
  destruct (negb (_trained m) || bool_decide (counts m = ∅)).
  { simpl. intros ->%list_elem_of_singleton. by split. }
  pose proof (generate_loop_visible (Z.to_nat max_length) m
                (times START_TOKEN (n m - 1)) [] r Hinv
                (Forall_nil_2 _)) as Hvis.
  destruct (generate_loop _ _ _ _ _) as [[generated m2] r2]. simpl in *.
  destruct generated as [|w0 rest] eqn:Hgen.
  { simpl. intros ->%list_elem_of_singleton. by split. }
  rewrite <- Hgen in *.
  rewrite split_space_join.
  - intros Hw. rewrite Forall_forall in Hvis.
    destruct (visible_not_marker _ (Hvis _ Hw)) as (? & ? & _). by split.
  - by rewrite Hgen.
  - eapply Forall_impl; [exact Hvis|].
    intros x Hx. by destruct (visible_not_marker _ Hx) as (_ & _ & ?).
Qed.

Lemma print_samples_spec (args : Generate.Args) (m : t) (k : nat) (r : R) :
  tables_inv is_target m ->
  exists texts r',
    foldl (Generate.print_sample args) ([], m, r) (seqZ 1 (Z.of_nat k))
    = (printed_lines texts, m, r')
    /\ length texts = k
    /\ Forall marker_free texts.
Proof.
  intros Hinv. induction k as [|k (texts & r1 & Hrun & Hlen & Hfree)].
  - exists [], r. by repeat split.
  - rewrite seqZ_S, foldl_app, Hrun. cbn [foldl].
    unfold Generate.print_sample at 1.
    pose proof (generate_preserves_model m (Generate.arg_max_length args) r1)
      as Hm.
    pose proof (generate_marker_free m (Generate.arg_max_length args) r1 Hinv)
      as Hmf.
    destruct (generate m (Generate.arg_max_length args) r1)
      as [[text m1] r2]. simpl in Hm, Hmf. subst m1.
    exists (texts ++ [text]), r2. split; [|split].
    + unfold printed_lines. rewrite imap_app, concat_app. simpl.
      rewrite ?Hlen, ?Nat.add_0_r, ?app_nil_r.
      by replace (1 + Z.of_nat k) with (Z.of_nat k + 1) by lia.
    + rewrite length_app. simpl. lia.
    + apply Forall_app. split; [done|by constructor].
Qed.

End MainFacts.

(** X17: main never fails on any arguments and corpus text; it prints,
    for each of max(0, num_samples) generated texts, a numbered header,
    the text and a rule of 60 dashes, and no generated text shows a
    start- or end-marker. *)
Theorem main_prints_samples {R : Type} `{RandomSource R}
  (args : Generate.Args) (text : string) (r : R) :
  exists texts r',
    Generate.main args text r = Ok (printed_lines texts, r')
    /\ Z.of_nat (length texts) = Z.max 0 (Generate.arg_num_samples args)
    /\ Forall marker_free texts.
Proof.
  unfold Generate.main.
  set (m0 := Build 3 (Generate.arg_min_count args) ∅ ∅ reserved false).
  change (__init__ 3 (Generate.arg_min_count args)) with (Ok m0).
  destruct (fit_spec m0 text ltac:(simpl; lia)) as (m' & Hfit & Hinv & _).
  cbv [mbind result_bind]. rewrite Hfit.
  set (r0 := match Generate.arg_seed args with
             | Some v => seed v
             | None => r
             end).
  replace (Generate.arg_num_samples args + 1 - 1)
    with (Generate.arg_num_samples args) by lia.
  destruct (Z.le_gt_cases 0 (Generate.arg_num_samples args)) as [Hpos|Hneg].
  - destruct (print_samples_spec args m'
                (Z.to_nat (Generate.arg_num_samples args)) r0 Hinv)
      as (texts & r' & Hrun & Hlen & Hfree).
    rewrite Z2Nat.id in Hrun by done. rewrite Hrun.
    exists texts, r'. split; [done|]. split; [lia|done].
  - rewrite seqZ_nil by lia. simpl.
    exists [], r0. split; [done|]. split; [simpl; lia|done].
Qed.

(** ** Folding of rare tokens *)

(** X18: when some token reaches min_count, every token stored in a
    context key or as a successor either occurs at least min_count times
    in the corpus or is one of the three reserved tokens: rarer tokens
    have been folded into the unknown-marker. *)
Theorem fit_folds_rare_tokens (m m' : t) (text : string) :
  2 <= n m ->
  fit m text = Ok m' ->
  let corpus := concat (_prepare_sentences (Py.strip text)) in
  (exists tok, tok ∈ corpus /\ min_count m <= occurrences tok corpus) ->
  forall (ctx : list string) (inner : list (string * Z)) (tok : string),
    counts m' !! ctx = Some inner ->
    tok ∈ ctx \/ tok ∈ inner.*1 ->
    occurrences tok corpus < min_count m ->
    tok = START_TOKEN \/ tok = END_TOKEN \/ tok = UNK_TOKEN.
Proof.
  intros Hn Hfit corpus Hsome ctx inner tok Hctx Htok Hrare.
  assert (tok ∈ vocab m') as Hv.
  { destruct Htok as [Hin|Hin].
    - destruct (stored_inner_nonempty m m' text ctx inner Hn Hfit Hctx)
        as (w0 & c0 & Hin0).
      destruct (stored_pair_shape m m' text ctx inner w0 c0 Hn Hfit Hctx Hin0)
        as (_ & Hvctx & _).
      rewrite Forall_forall in Hvctx. by apply Hvctx.
    - apply list_elem_of_fmap in Hin as ([w c] & -> & Hin).
      by destruct (stored_pair_shape m m' text ctx inner w c Hn Hfit Hctx Hin)
        as (_ & _ & ?). }
  destruct (fit_spec m text Hn) as (m1 & Hfit1 & _ & _ & _ & _ & Hvocab).
  rewrite Hfit in Hfit1. injection Hfit1 as <-.
  destruct Hvocab as [Hvoc _].
  { intros Hnil. destruct Hsome as (t0 & Hin & _). subst corpus.
    rewrite Hnil in Hin. by apply elem_of_nil in Hin. }
  rewrite Hvoc in Hv.
  destruct (build_vocabulary_spec (_reset_model_state m)
              (_prepare_sentences (Py.strip text))) as [Hfreq _].
  simpl in Hfreq. fold corpus in Hfreq.
  apply (Hfreq Hsome) in Hv as [[_ Hocc]|Hres]; [lia|].
  by apply reserved_elem.
Qed.

Lemma fit_folds_rare_tokens_witness :
  "<unk>" = START_TOKEN \/ "<unk>" = END_TOKEN \/ "<unk>" = UNK_TOKEN.
Proof.
  apply (fit_folds_rare_tokens trigram_model (fitted trigram_model cat_corpus)
           cat_corpus ltac:(simpl; lia) ltac:(vm_compute; reflexivity)
           ltac:(exists "the"; split; [by left|vm_compute; discriminate])
           ["the"; "cat"] [("sat", 1); ("<unk>", 1)] "<unk>").
  - vm_compute; reflexivity.
  - right. right. by left.
  - vm_compute; reflexivity.
Defined.

(** ** The added functions on concrete inputs *)

Example normalize_whitespace_ex :
  Utils.normalize_whitespace
    ("  a   b " +:+ Py.newline +:+ Py.newline +:+ " c  ") = "a b c".
Proof. reflexivity. Qed.

Example process_text_ex :
  DataPipeline.process_text
    ("Preface *** START OF THE PROJECT GUTENBERG EBOOK ALICE ***" +:+ Py.newline
     +:+ "  Down   the rabbit hole. " +:+ Py.newline
     +:+ "*** END OF THE PROJECT GUTENBERG EBOOK ALICE ***")
  = "Down the rabbit hole.".
Proof. reflexivity. Qed.

Example main_ex :
  @Generate.main Z lcg_source
    (Generate.Build_Args "data/example_corpus.txt" 5 2 2 (Some 7)) cat_corpus 0
  = Ok (["Generated Text #1:"; "the cat sat";
         "------------------------------------------------------------";
         "Generated Text #2:"; "the cat <unk>";
         "------------------------------------------------------------"],
        2083449087).
Proof. vm_compute; reflexivity. Qed.

Example stored_count_ex :
  stored_count (fitted trigram_model cat_corpus) ["<s>"; "<s>"] "the" = 3
  /\ stored_total (fitted trigram_model cat_corpus) ["<s>"; "the"] = 3
  /\ stored_count (fitted trigram_model cat_corpus) ["<s>"; "the"] "dog" = 0.
Proof. repeat split; vm_compute; reflexivity. Qed.
